(** * snowflake.ml._internal.env_utils: dependency validation and conflict detection

    A shallow embedding of [src/snowflake/ml/_internal/env_utils.py].

    - Python [str] is [string], the UTF-8 bytes of the text: looking for the
      ASCII separator ["::"] and ordering strings give the same results on
      bytes as on code points; a [List] is a [list]; the process-wide
      [Dict[str, List[Version]]] cache is a [gmap]; the [DefaultDict] of conda
      dependencies is an association list in insertion order, because the code
      iterates over [items()] and the first hit decides which exception is raised.
    - A function that raises returns a [result]; a function that mutates an
      argument or the module-level cache is a computation of the monad [M],
      which threads the mutated object and keeps it when an exception is raised.
    - The module state is the cache together with the
      [__warningregistry__] that [warnings.warn] keeps in the globals of the
      module it is called from.
    - The third-party [packaging] library (requirement parser, name
      canonicalisation, versions, specifier sets), the SQL result validator,
      the conda solver, the installed-distribution lookup and the filters of
      [warnings] are interfaces: every theorem holds for all their
      implementations. *)

From Stdlib Require Import Strings.Ascii.
From stdpp Require Import base strings list gmap sorting.

Local Open Scope string_scope.
Local Open Scope list_scope.

(** ** Exceptions and results *)

Inductive exception_class :=
  | ValueError
  | DuplicateDependencyError
  | DuplicateDependencyInMultipleChannelsError
  | InvalidVersion
  | UserWarning.

Global Instance exception_class_eq_dec : EqDecision exception_class.
Proof. solve_decision. Defined.

Record exception := Exception {
  exc_class : exception_class;
  exc_message : string
}.

Inductive result (A : Type) :=
  | Ok (a : A)
  | Raise (e : exception).
Arguments Ok {A} a.
Arguments Raise {A} e.

(** [raises c r]: the call ended by raising an exception of class [c]. *)
Definition raises {A} (c : exception_class) (r : result A) : Prop :=
  match r with
  | Ok _ => False
  | Raise e => exc_class e = c
  end.

Definition returns {A} (r : result A) : Prop :=
  match r with
  | Ok _ => True
  | Raise _ => False
  end.

Global Instance raises_dec {A} c (r : result A) : Decision (raises c r).
Proof. destruct r; simpl; apply _. Defined.

Global Instance returns_dec {A} (r : result A) : Decision (returns r).
Proof. destruct r; simpl; apply _. Defined.

Global Instance result_ret : MRet result := @Ok.
Global Instance result_bind : MBind result := λ A B f r,
  match r with
  | Ok a => f a
  | Raise e => Raise e
  end.

(** ** Computations over a mutable object

    [M S A] runs on an object of type [S] (a list, a dict, the cache), yields
    a value or an exception, and the object as the call leaves it. *)

Definition M (S A : Type) : Type := S → result A * S.

Global Instance M_ret {S} : MRet (M S) := λ A a s, (Ok a, s).
Global Instance M_bind {S} : MBind (M S) := λ A B f m s,
  match m s with
  | (Ok a, s') => f a s'
  | (Raise e, s') => (Raise e, s')
  end.

Definition raise {S A} (e : exception) : M S A := λ s, (Raise e, s).
Definition get {S} : M S S := λ s, (Ok s, s).
Definition modify {S} (f : S → S) : M S unit := λ s, (Ok (), f s).
Definition lift {S A} (r : result A) : M S A := λ s, (r, s).

(** [for x in l: body x] *)
Fixpoint for_each {S A} (l : list A) (body : A → M S unit) : M S unit :=
  match l with
  | [] => mret ()
  | x :: l' => body x ≫= λ _, for_each l' body
  end.

(** ** The [packaging] library *)

Class PackagingTypes := {
  SpecifierSet : Type;
  Marker : Type;
  Version : Type
}.

(** [packaging.requirements.Requirement]: the attributes of a parsed
    PEP 508 requirement. *)
Record Requirement `{PackagingTypes} := mkRequirement {
  name : string;
  url : option string;
  extras : gset string;
  specifier : SpecifierSet;
  marker : option Marker
}.

Class Packaging `{PackagingTypes} := {
  (** [requirements.Requirement(s)]; [None] is [InvalidRequirement]. *)
  parse_requirement : string → option Requirement;
  (** [utils.canonicalize_name] *)
  canonicalize_name : string → string;
  (** [str(req)] *)
  requirement_str : Requirement → string;
  (** [version.parse]; [None] is [InvalidVersion]. *)
  version_parse : string → option Version;
  (** [str(v)] *)
  version_str : Version → string;
  (** [a < b] on versions; [a > b] is [version_lt b a]. *)
  version_lt : Version → Version → bool;
  (** [SpecifierSet.contains(version_string)] *)
  specifier_contains : SpecifierSet → string → bool;
  (** [SpecifierSet()], the empty specifier set. *)
  specifier_empty : SpecifierSet;
  (** [SpecifierSet(specifiers=s)] *)
  specifier_of_string : string → SpecifierSet;
  (** [list(SpecifierSet.filter(versions))] *)
  specifier_filter : SpecifierSet → list Version → list Version
}.

(** The module-level [_SNOWFLAKE_CONDA_PACKAGE_CACHE : Dict[str, List[Version]]]. *)
Abbreviation package_cache := (gmap string (list Version)).

(** Truth value of a Python object in [if x:]. *)
Definition truthy_str (o : option string) : bool :=
  match o with
  | Some s => bool_decide (s ≠ "")
  | None => false
  end.

Definition truthy_set (x : gset string) : bool := bool_decide (x ≠ ∅).

(** An object without [__bool__] or [__len__] is true; [None] is false. *)
Definition truthy_obj {A} (o : option A) : bool :=
  match o with
  | Some _ => true
  | None => false
  end.

(** ** Built-in string operations *)

(** [strip_prefix sep s] is [Some t] exactly when [s] is [sep] followed by [t]. *)
Fixpoint strip_prefix (sep s : string) : option string :=
  match sep, s with
  | EmptyString, _ => Some s
  | String a sep', String b s' =>
      if decide (a = b) then strip_prefix sep' s' else None
  | String _ _, EmptyString => None
  end.

(** The split that [s.rpartition(sep)] makes, for a non-empty [sep]:
    [Some (head, tail)] at the last occurrence of [sep] in [s], [None] when
    [sep] does not occur. *)
Fixpoint rsplit_last (sep s : string) : option (string * string) :=
  match s with
  | EmptyString => None
  | String c s' =>
      match rsplit_last sep s' with
      | Some (h, t) => Some (String c h, t)
      | None =>
          match strip_prefix sep s with
          | Some t => Some ("", t)
          | None => None
          end
      end
  end.

Definition rpartition (sep s : string) : string * string * string :=
  match rsplit_last sep s with
  | Some (h, t) => (h, sep, t)
  | None => ("", "", s)
  end.

(** [sorted(l)] on strings. *)
Definition sorted (l : list string) : list string := merge_sort String.le l.

(** ** The conda solver

    [conda_libmamba_solver.solver.LibMambaSolver(..., channels, specs_to_add)
    .solve_final_state()]: it returns package records or raises. Building
    the solver object is taken not to raise. *)

Record PackageRecord := mkPackageRecord {
  pkg_name : string;
  pkg_version : string
}.

Inductive conda_exception :=
  | ResolvePackageNotFound
  | UnsatisfiableError
  | PackagesNotFoundError
  | LibMambaUnsatisfiableError
  | OtherCondaException (what : string).

Inductive solve_outcome :=
  | Solved (solve_result : list PackageRecord)
  | SolveRaises (e : conda_exception).

Definition LibMambaSolver : Type := list string → list string → solve_outcome.

(** The classes named by the [except] clause of [resolve_conda_environment]. *)
Definition caught_by_resolve (e : conda_exception) : bool :=
  match e with
  | ResolvePackageNotFound | UnsatisfiableError
  | PackagesNotFoundError | LibMambaUnsatisfiableError => true
  | OtherCondaException _ => false
  end.

(** What a call of [resolve_conda_environment] does: it returns a value, or
    an exception of the solver goes through it. *)
Inductive resolve_outcome :=
  | Returned (r : option (list string))
  | Propagated (e : conda_exception).

(** ** The package catalog

    A row of [information_schema.packages] as the query returns it (three
    columns), and a session on which the query runs. *)

Record package_row := mkPackageRow {
  PACKAGE_NAME : string;
  VERSION : string;
  LANGUAGE : string
}.

(** [query_raises_DataError names] tells whether running and validating the
    query for [names] ([SqlResultValidator(...).has_column(...)
    .has_dimensions(...).validate()], a module that is not part of these
    sources) raises [snowflake.connector.DataError]; when it does not,
    [validate()] returns the rows the query selects. *)
Record Session := mkSession {
  information_schema_packages : list package_row;
  query_raises_DataError : list string → bool
}.

(** [SELECT * FROM information_schema.packages
     WHERE (package_name = 'n1' OR ... ) AND language = 'python'] *)
Definition select_packages (names : list string) (table : list package_row)
  : list package_row :=
  filter (λ row, PACKAGE_NAME row ∈ names ∧ LANGUAGE row = "python") table.

Section env_utils.
Context `{Packaging}.

Definition set_name (r : Requirement) (n : string) : Requirement :=
  {| name := n; url := url r; extras := extras r;
     specifier := specifier r; marker := marker r |}.

Definition set_specifier (r : Requirement) (s : SpecifierSet) : Requirement :=
  {| name := name r; url := url r; extras := extras r;
     specifier := s; marker := marker r |}.

Definition _validate_pip_requirement_string (req_str : string) : result Requirement :=
  match parse_requirement req_str with
  | None =>
      Raise (Exception ValueError ("Invalid package requirement " +:+ req_str +:+ " found."))
  | Some r0 =>
      let r := set_name r0 (canonicalize_name (name r0)) in
      if truthy_obj (marker r)
      then Raise (Exception ValueError "Markers is not supported in conda dependency.")
      else Ok r
  end.

Definition _validate_conda_dependency_string (dep_str : string)
  : result (string * Requirement) :=
  let '(channel_str, _, requirement_str) := rpartition "::" dep_str in
  let channel_str := if decide (channel_str = "") then "defaults" else channel_str in
  r ← _validate_pip_requirement_string requirement_str;
  if decide (channel_str ≠ "pip") then
    if truthy_set (extras r)
    then Raise (Exception ValueError "Extras is not supported in conda dependency.")
    else if truthy_str (url r)
    then Raise (Exception ValueError "Url is not supported in conda dependency.")
    else Ok (channel_str, r)
  else Ok (channel_str, r).

Definition _check_if_requirement_same (req_a req_b : Requirement) : bool :=
  bool_decide (name req_a = name req_b).

(** [req_list] is the mutated object. *)
Definition append_requirement_list (p_req : Requirement) : M (list Requirement) unit :=
  req_list ← get;
  for_each req_list (λ req,
    if _check_if_requirement_same p_req req
    then raise (Exception DuplicateDependencyError
           ("Found duplicate dependencies in pip requirements: "
              +:+ requirement_str req +:+ " and " +:+ requirement_str p_req +:+ "."))
    else mret ());;
  modify (λ l, l ++ [p_req]).

(** A [DefaultDict[str, List[Requirement]]]: its items in insertion order;
    the keys of a dict are pairwise distinct ([dict_wf]). *)
Definition conda_deps : Type := list (string * list Requirement).

Definition dict_wf (d : conda_deps) : Prop := NoDup d.*1.

(** [d[k]] on a [defaultdict(list)]: a missing key is inserted, last, with
    an empty list. *)
Definition defaultdict_missing (k : string) (d : conda_deps) : conda_deps :=
  if decide (k ∈ d.*1) then d else d ++ [(k, [])].

(** [.append(v)] on the list object stored under [k]. *)
Definition append_under (k : string) (v : Requirement) (d : conda_deps) : conda_deps :=
  (λ item, if decide (item.1 = k) then (item.1, item.2 ++ [v]) else item) <$> d.

(** [conda_chan_deps] is the mutated object. *)
Definition append_conda_dependency (p_chan_dep : string * Requirement)
  : M conda_deps unit :=
  let '(p_channel, p_req) := p_chan_dep in
  conda_chan_deps ← get;
  for_each conda_chan_deps (λ '(chan_channel, chan_req_list),
    for_each chan_req_list (λ chan_req,
      if _check_if_requirement_same p_req chan_req then
        if decide (chan_channel ≠ p_channel) then
          raise (Exception DuplicateDependencyInMultipleChannelsError
            ("Found duplicate dependencies: "
               +:+ requirement_str chan_req +:+ " in channel " +:+ chan_channel
               +:+ " and " +:+ requirement_str p_req +:+ " in channel " +:+ p_channel +:+ "."))
        else
          raise (Exception DuplicateDependencyError
            ("Found duplicate dependencies in channel " +:+ chan_channel +:+ ": "
               +:+ requirement_str chan_req +:+ " and " +:+ requirement_str p_req +:+ "."))
      else mret ()));;
  modify (λ d, append_under p_channel p_req (defaultdict_missing p_channel d)).

(** Runs a loop on a fresh local object and returns that object. *)
Definition run_on {S} (init : S) (m : M S unit) : result S :=
  match m init with
  | (Ok _, s) => Ok s
  | (Raise e, _) => Raise e
  end.

Definition validate_pip_requirement_string_list (req_str_list : list string)
  : result (list Requirement) :=
  run_on [] (for_each req_str_list (λ req_str,
    p_req ← lift (_validate_pip_requirement_string req_str);
    append_requirement_list p_req)).

(** [list(map(f, l))]: the first exception ends the call. *)
Fixpoint list_map {A B} (f : A → result B) (l : list A) : result (list B) :=
  match l with
  | [] => Ok []
  | x :: l' => y ← f x; ys ← list_map f l'; Ok (y :: ys)
  end.

Definition validate_conda_dependency_string_list (dep_str_list : list string)
  : result conda_deps :=
  validated_conda_dependency_list ← list_map _validate_conda_dependency_string dep_str_list;
  run_on [] (for_each validated_conda_dependency_list (λ '(p_channel, p_req),
    append_conda_dependency (p_channel, p_req))).

(** The requirement a call of [get_local_installed_version_of_pip_package]
    returns. [distribution_version] is
    [importlib_metadata.distribution(name).version]; [None] is
    [PackageNotFoundError]. The call itself, with its [warnings.warn], is
    [get_local_installed_version_of_pip_package_call] below. *)
Definition get_local_installed_version_of_pip_package
    (distribution_version : string → option string) (pip_req : Requirement)
  : Requirement :=
  match distribution_version (name pip_req) with
  | Some local_dist_version =>
      if specifier_contains (specifier pip_req) local_dist_version
      then set_specifier pip_req (specifier_of_string ("==" +:+ local_dist_version))
      else pip_req
  | None => pip_req
  end.

Definition relax_requirement_version (req : Requirement) : Requirement :=
  set_specifier req specifier_empty.

Definition resolve_conda_environment (conda_solver : LibMambaSolver)
    (packages : list Requirement) (channels : list string) : resolve_outcome :=
  let package_names := name <$> packages in
  let specs := requirement_str <$> packages in
  match conda_solver channels specs with
  | SolveRaises e =>
      if caught_by_resolve e then Returned None else Propagated e
  | Solved solve_result =>
      Returned (Some (sorted (
        (λ pkg_record, pkg_name pkg_record +:+ "==" +:+ pkg_version pkg_record)
          <$> filter (λ pkg_record, pkg_name pkg_record ∈ package_names) solve_result)))
  end.

(** [max(l)] for a non-empty [l]: the first item is the candidate, and a
    later item replaces it when [item > candidate]. *)
Definition py_max (first : Version) (rest : list Version) : Version :=
  foldl (λ maxitem item, if version_lt maxitem item then item else maxitem) first rest.

(** The body of [for row in result:]. An [InvalidVersion] of
    [version.parse] is not a [DataError]: it ends the loop and the call, and
    the cache keeps what the rows before added. *)
Definition cache_row (row : package_row) : M package_cache unit :=
  let req_name := PACKAGE_NAME row in
  match version_parse (VERSION row) with
  | None => raise (Exception InvalidVersion ("Invalid version: '" +:+ VERSION row +:+ "'"))
  | Some req_ver =>
      modify (λ cache : package_cache,
        let cached_req_ver_list := default [] (cache !! req_name) in
        <[req_name := cached_req_ver_list ++ [req_ver]]> cache)
  end.

(** The last loop, [for req in reqs:], with its early [return None]. *)
Fixpoint pin_latest (cache : package_cache) (reqs : list Requirement)
    (ret_list : list string) : option (list string) :=
  match reqs with
  | [] => Some (sorted ret_list)
  | req :: reqs' =>
      match specifier_filter (specifier req) (default [] (cache !! name req)) with
      | [] => None
      | v :: vs =>
          let latest_version := py_max v vs in
          pin_latest cache reqs'
            (ret_list ++ [name req +:+ "==" +:+ version_str latest_version])
      end
  end.

(** [_SNOWFLAKE_CONDA_PACKAGE_CACHE] is the mutated object. *)
Definition validate_requirements_in_snowflake_conda_channel
    (session : Session) (reqs : list Requirement)
  : M package_cache (option (list string)) :=
  cache0 ← get;
  let reqs_to_request := filter (λ req, cache0 !! name req = None) reqs in
  let last_loop : M package_cache (option (list string)) :=
    cache ← get; mret (pin_latest cache reqs []) in
  match reqs_to_request with
  | [] => last_loop
  | _ :: _ =>
      let names := sorted (name <$> reqs_to_request) in
      if query_raises_DataError session names
      then mret None
      else
        let result := select_packages names (information_schema_packages session) in
        for_each result cache_row;;
        last_loop
  end.

End env_utils.

(** ** The module state

    The globals of the module that a call can change: the cache, and the
    [__warningregistry__] that [warnings.warn] keeps in the globals of the
    module it is called from. *)

(** [warnings.warn(message, category=UserWarning)] from a module whose
    globals hold [registry] under [__warningregistry__] ([None]: the global
    does not exist yet). [warn] takes the registry with
    [globals.setdefault("__warningregistry__", {})], so the global exists
    afterwards whatever the filters do with the warning; with the action
    ["error"] the warning is raised as an exception. *)
Class Warnings := {
  WarningRegistry : Type;
  (** The filters have the action ["error"] for this warning. *)
  warning_is_error : string → option WarningRegistry → bool;
  (** The registry of the module after the call. *)
  warning_registry : string → option WarningRegistry → WarningRegistry
}.

Section operations.
Context `{Packaging} `{Warnings}.

Record module_state := mkModuleState {
  _SNOWFLAKE_CONDA_PACKAGE_CACHE : package_cache;
  __warningregistry__ : option WarningRegistry
}.

(** A computation on the cache, as part of the module state. *)
Definition on_cache {A} (m : M package_cache A) : M module_state A := λ st,
  let '(r, cache) := m (_SNOWFLAKE_CONDA_PACKAGE_CACHE st) in
  (r, {| _SNOWFLAKE_CONDA_PACKAGE_CACHE := cache;
         __warningregistry__ := __warningregistry__ st |}).

(** [warnings.warn(message, category=UserWarning)] in this module. *)
Definition warn (message : string) : M module_state unit := λ st,
  let registry := __warningregistry__ st in
  (if warning_is_error message registry
   then Raise (Exception UserWarning message)
   else Ok (),
   {| _SNOWFLAKE_CONDA_PACKAGE_CACHE := _SNOWFLAKE_CONDA_PACKAGE_CACHE st;
      __warningregistry__ := Some (warning_registry message registry) |}).

Definition get_local_installed_version_of_pip_package_call
    (distribution_version : string → option string) (pip_req : Requirement)
  : M module_state Requirement :=
  match distribution_version (name pip_req) with
  | Some local_dist_version =>
      if specifier_contains (specifier pip_req) local_dist_version
      then mret (set_specifier pip_req (specifier_of_string ("==" +:+ local_dist_version)))
      else
        warn ("Package requirement " +:+ requirement_str pip_req
                +:+ " specified, while version " +:+ local_dist_version
                +:+ " is installed.");;
        mret pip_req
  | None => mret pip_req
  end.

(** The exported operations. The list and the dict that the two [append_]
    operations mutate are objects of the caller, given here with the call. *)
Inductive operation :=
  | call_validate_pip_requirement_string_list (req_str_list : list string)
  | call_validate_conda_dependency_string_list (dep_str_list : list string)
  | call_append_requirement_list (req_list : list Requirement) (p_req : Requirement)
  | call_append_conda_dependency (conda_chan_deps : conda_deps)
      (p_chan_dep : string * Requirement)
  | call_get_local_installed_version_of_pip_package
      (distribution_version : string → option string) (pip_req : Requirement)
  | call_relax_requirement_version (req : Requirement)
  | call_resolve_conda_environment (conda_solver : LibMambaSolver)
      (packages : list Requirement) (channels : list string)
  | call_validate_requirements_in_snowflake_conda_channel
      (session : Session) (reqs : list Requirement).

(** A call as a computation on the module state, its value dropped. *)
Definition call (op : operation) : M module_state unit :=
  match op with
  | call_validate_requirements_in_snowflake_conda_channel session reqs =>
      on_cache (validate_requirements_in_snowflake_conda_channel session reqs);;
      mret ()
  | call_get_local_installed_version_of_pip_package distribution_version pip_req =>
      get_local_installed_version_of_pip_package_call distribution_version pip_req;;
      mret ()
  | call_validate_pip_requirement_string_list req_str_list =>
      lift (validate_pip_requirement_string_list req_str_list);; mret ()
  | call_validate_conda_dependency_string_list dep_str_list =>
      lift (validate_conda_dependency_string_list dep_str_list);; mret ()
  | call_append_requirement_list req_list p_req =>
      lift (append_requirement_list p_req req_list).1
  | call_append_conda_dependency conda_chan_deps p_chan_dep =>
      lift (append_conda_dependency p_chan_dep conda_chan_deps).1
  | call_relax_requirement_version req =>
      mret (relax_requirement_version req);; mret ()
  | call_resolve_conda_environment conda_solver packages channels =>
      mret (resolve_conda_environment conda_solver packages channels);; mret ()
  end.

(** The module state after a call, whether the call returns or raises. *)
Definition state_after (op : operation) (st : module_state) : module_state :=
  (call op st).2.

End operations.

(** ** Vocabulary of the properties *)

(** [sep] occurs in [s]. *)
Definition occurs (sep s : string) : Prop := ∃ a b, s = a +:+ sep +:+ b.

(** [s] is [h], then [sep], then [t], and no occurrence of [sep] in [s]
    starts further right. *)
Definition last_occurrence (sep s h t : string) : Prop :=
  s = h +:+ sep +:+ t
  ∧ ∀ a b, s = a +:+ sep +:+ b → (String.length a ≤ String.length h)%nat.

(** [if r.extras] or [if r.url] would be taken. *)
Definition has_extras_or_url `{PackagingTypes} (r : Requirement) : Prop :=
  extras r ≠ ∅ ∨ ∃ u, url r = Some u ∧ u ≠ "".

Section vocabulary.
Context `{Packaging}.
Implicit Types (d : conda_deps).

(** The (channel, requirement) pairs of a dict, in iteration order. *)
Definition flat_items d : list (string * Requirement) :=
  d ≫= λ item, (λ req, (item.1, req)) <$> item.2.

(** All requirements of a dict, over all channels. *)
Definition all_requirements d : list Requirement := (flat_items d).*2.

Definition multiple_channels_exception (p_chan_dep item : string * Requirement) :=
  Exception DuplicateDependencyInMultipleChannelsError
    ("Found duplicate dependencies: "
       +:+ requirement_str item.2 +:+ " in channel " +:+ item.1
       +:+ " and " +:+ requirement_str p_chan_dep.2 +:+ " in channel "
       +:+ p_chan_dep.1 +:+ ".").

Definition same_channel_exception (p_chan_dep item : string * Requirement) :=
  Exception DuplicateDependencyError
    ("Found duplicate dependencies in channel " +:+ item.1 +:+ ": "
       +:+ requirement_str item.2 +:+ " and " +:+ requirement_str p_chan_dep.2 +:+ ".").

(** [occurs_under d n ch]: the dict has a requirement named [n] under [ch]. *)
Definition occurs_under d (n ch : string) : Prop :=
  ∃ l req, (ch, l) ∈ d ∧ req ∈ l ∧ name req = n.

(** The conflict rule for one call of [append_conda_dependency]: which
    exception it raises, and what it appends when it raises none. *)
Definition detects_channel_conflicts d (p_chan_dep : string * Requirement) : Prop :=
  let p_channel := p_chan_dep.1 in
  let p_req := p_chan_dep.2 in
  let run := append_conda_dependency p_chan_dep d in
  let before : gmap string (list Requirement) := list_to_map d in
  (raises DuplicateDependencyInMultipleChannelsError run.1
     ↔ ∃ ch, ch ≠ p_channel ∧ occurs_under d (name p_req) ch)
  ∧ (raises DuplicateDependencyError run.1 ↔ occurs_under d (name p_req) p_channel)
  ∧ ((∀ ch, ¬ occurs_under d (name p_req) ch) →
       run.1 = Ok () ∧ dict_wf run.2
       ∧ list_to_map run.2 =
           <[p_channel := default [] (before !! p_channel) ++ [p_req]]> before).

(** Merging on a duplicate name: the call returns and the list holds one
    entry of that name. *)
Definition merges_duplicate (req_list : list Requirement) (p_req : Requirement) : Prop :=
  let run := append_requirement_list p_req req_list in
  run.1 = Ok ()
  ∧ length (filter (λ req, name req = name p_req) run.2) = 1.

(** The body of the loop of [validate_pip_requirement_string_list]. *)
Definition pip_body (req_str : string) : M (list Requirement) unit :=
  p_req ← lift (_validate_pip_requirement_string req_str);
  append_requirement_list p_req.

(** The body of the loop of [validate_conda_dependency_string_list]. *)
Definition conda_body (item : string * Requirement) : M conda_deps unit :=
  let '(p_channel, p_req) := item in append_conda_dependency (p_channel, p_req).

(** The two parts [_validate_conda_dependency_string] cuts a string into. *)
Definition channel_part (dep_str : string) : string :=
  let channel_str := (rpartition "::" dep_str).1.1 in
  if decide (channel_str = "") then "defaults" else channel_str.

Definition requirement_part (dep_str : string) : string :=
  (rpartition "::" dep_str).2.

(** The name of a validated requirement is a canonical name. *)
Definition canonical_name (r : Requirement) : Prop :=
  ∃ n, name r = canonicalize_name n.

(** Two strings of [strs] whose names canonicalise to one name make the pip
    validator raise [DuplicateDependencyError], whatever else [strs] holds. *)
Definition respelling_raises_duplicate (strs : list string) : Prop :=
  ∀ i j s1 s2 r1 r2,
    i ≠ j → strs !! i = Some s1 → strs !! j = Some s2 →
    parse_requirement s1 = Some r1 → parse_requirement s2 = Some r2 →
    canonicalize_name (name r1) = canonicalize_name (name r2) →
    raises DuplicateDependencyError (validate_pip_requirement_string_list strs).

(** *** The catalog and the cache *)

Definition cached (cache : package_cache) (n : string) : list Version :=
  default [] (cache !! n).

(** [version.parse(row["VERSION"])] *)
Definition row_version (row : package_row) : option Version :=
  version_parse (VERSION row).

(** The versions of the rows that have one. *)
Definition versions_of (rows : list package_row) : list Version :=
  omap row_version rows.

(** The rows of the catalog for package [n] as a python package. *)
Definition catalog_rows (session : Session) (n : string) : list package_row :=
  filter (λ row, PACKAGE_NAME row = n ∧ LANGUAGE row = "python")
    (information_schema_packages session).

(** The versions the catalog lists for package [n] as a python package. *)
Definition catalog_versions (session : Session) (n : string) : list Version :=
  versions_of (catalog_rows session n).

(** The versions a call works with for package [n]: those cached before the
    call when there are any, the catalog's otherwise. *)
Definition known_versions (cache : package_cache) (session : Session) (n : string)
  : list Version :=
  match cache !! n with
  | Some versions => versions
  | None => catalog_versions session n
  end.

(** The versions of [versions] that the specifier of [req] selects. *)
Definition selected (req : Requirement) (versions : list Version) : list Version :=
  specifier_filter (specifier req) versions.

(** [v] is one of [versions] and none of them is greater. *)
Definition is_latest (v : Version) (versions : list Version) : Prop :=
  v ∈ versions ∧ ∀ w, w ∈ versions → version_lt v w = false.

Definition pinned (req : Requirement) (v : Version) : string :=
  name req +:+ "==" +:+ version_str v.

(** The requirements a call asks the catalog about. *)
Definition reqs_to_request (cache : package_cache) (reqs : list Requirement)
  : list Requirement :=
  filter (λ req, cache !! name req = None) reqs.

(** The call issues a query and the query raises [DataError]. *)
Definition query_fails (session : Session) (reqs : list Requirement)
    (cache : package_cache) : Prop :=
  reqs_to_request cache reqs ≠ []
  ∧ query_raises_DataError session (sorted (name <$> reqs_to_request cache reqs)) = true.

(** The rows the query of a call selects. *)
Definition rows_selected (session : Session) (reqs : list Requirement)
    (cache : package_cache) : list package_row :=
  select_packages (sorted (name <$> reqs_to_request cache reqs))
    (information_schema_packages session).

(** Every row the call reads has a [VERSION] that [version.parse] accepts:
    the call reads the selected rows, unless its query fails. *)
Definition reads_versions (session : Session) (reqs : list Requirement)
    (cache : package_cache) : Prop :=
  query_fails session reqs cache
  ∨ Forall (λ row, is_Some (row_version row)) (rows_selected session reqs cache).

(** [out] pins every requirement to its latest selected version among
    [versions], sorted, and is [None] exactly on a failed query or a
    requirement without a selected version. *)
Definition reconciles (versions : string → list Version) (failed : Prop)
    (reqs : list Requirement) (out : option (list string)) : Prop :=
  (out = None ↔
     failed ∨ ∃ req, req ∈ reqs ∧ selected req (versions (name req)) = [])
  ∧ (∀ l, out = Some l →
       Sorted String.le l
       ∧ ∃ vs, Forall2 (λ req v, is_latest v (selected req (versions (name req)))) reqs vs
               ∧ l ≡ₚ zip_with pinned reqs vs).

(** Reconciliation against the catalog, as one call on a cache state. *)
Definition reconciles_with_catalog (session : Session) (reqs : list Requirement)
    (cache : package_cache) : Prop :=
  ∃ out,
    (validate_requirements_in_snowflake_conda_channel session reqs cache).1 = Ok out
    ∧ reconciles (catalog_versions session) (query_fails session reqs cache) reqs out.

(** Reconciliation against the versions the call knows. *)
Definition reconciles_with_known (session : Session) (reqs : list Requirement)
    (cache : package_cache) : Prop :=
  ∃ out,
    (validate_requirements_in_snowflake_conda_channel session reqs cache).1 = Ok out
    ∧ reconciles (known_versions cache session) (query_fails session reqs cache) reqs out.

(** [<] on versions is a strict order. *)
Class VersionOrder : Prop := {
  version_lt_irrefl : ∀ v, version_lt v v = false;
  version_lt_trans : ∀ a b c,
    version_lt a b = true → version_lt b c = true → version_lt a c = true
}.

(** The rows the loop over a query result gets through: those before the
    first row whose [VERSION] is not a version. *)
Fixpoint rows_read (rows : list package_row) : list package_row :=
  match rows with
  | [] => []
  | row :: rows' =>
      match row_version row with
      | Some _ => row :: rows_read rows'
      | None => []
      end
  end.

(** The cache after the versions of [rows] were added. *)
Definition cache_after (rows : list package_row) (cache : package_cache)
  : package_cache :=
  foldl (λ (c : package_cache) row,
    match row_version row with
    | Some v => <[PACKAGE_NAME row := cached c (PACKAGE_NAME row) ++ [v]]> c
    | None => c
    end)
    cache rows.

(** *** Further vocabulary *)

(** [d[ch]], or the empty list when [ch] is not a key. *)
Definition channel_requirements (d : conda_deps) (ch : string) : list Requirement :=
  default [] ((list_to_map d : gmap string (list Requirement)) !! ch).

(** The channels of validated dependencies, each once, in the order of
    their first use, after the channels [seen]. *)
Definition channels_from (seen : list string) (vs : list (string * Requirement))
  : list string :=
  foldl (λ seen ch, if decide (ch ∈ seen) then seen else seen ++ [ch]) seen vs.*1.

Definition channels_in_order (vs : list (string * Requirement)) : list string :=
  channels_from [] vs.

(** The dict that holds [rs], when there are any, under ["defaults"]. *)
Definition defaults_only (rs : list Requirement) : conda_deps :=
  match rs with
  | [] => []
  | _ :: _ => [("defaults", rs)]
  end.

End vocabulary.

Section module_vocabulary.
Context `{Packaging} `{Warnings}.

(** The cache is all the module state there is: a call that leaves the
    module state changed is a catalog lookup. *)
Definition only_the_lookup_changes_state (op : operation) (st : module_state) : Prop :=
  state_after op st ≠ st →
  ∃ session reqs, op = call_validate_requirements_in_snowflake_conda_channel session reqs.

End module_vocabulary.

(** ** A small implementation of the interfaces

    Enough of [packaging] to run the operations on concrete inputs:
    requirement strings of the forms [name], [name[extra]], [name==v],
    [name>=v], [name @ url], each optionally followed by [; marker];
    versions written as a single run of decimal digits and dots, compared as
    strings (which agrees with PEP 440 on the one-digit versions used
    below). *)

Module sample.

Definition is_lower (c : Ascii.ascii) : bool :=
  let n := Ascii.nat_of_ascii c in bool_decide (97 ≤ n ≤ 122)%nat.
Definition is_upper (c : Ascii.ascii) : bool :=
  let n := Ascii.nat_of_ascii c in bool_decide (65 ≤ n ≤ 90)%nat.
Definition is_digit (c : Ascii.ascii) : bool :=
  let n := Ascii.nat_of_ascii c in bool_decide (48 ≤ n ≤ 57)%nat.
Definition is_alnum (c : Ascii.ascii) : bool := is_lower c || is_upper c || is_digit c.
Definition is_name_sep (c : Ascii.ascii) : bool :=
  bool_decide (c = "-"%char ∨ c = "_"%char ∨ c = "."%char).

Definition lower (c : Ascii.ascii) : Ascii.ascii :=
  if is_upper c then Ascii.ascii_of_nat (Ascii.nat_of_ascii c + 32) else c.

(** [re.sub(r"[-_.]+", "-", name).lower()] *)
Fixpoint canonicalize_from (in_run : bool) (s : string) : string :=
  match s with
  | EmptyString => EmptyString
  | String c s' =>
      if is_name_sep c
      then if in_run then canonicalize_from true s'
           else String "-"%char (canonicalize_from true s')
      else String (lower c) (canonicalize_from false s')
  end.

Definition canonicalize_name : string → string := canonicalize_from false.

Fixpoint string_forallb (p : Ascii.ascii → bool) (s : string) : bool :=
  match s with
  | EmptyString => true
  | String c s' => p c && string_forallb p s'
  end.

Fixpoint last_char (s : string) : option Ascii.ascii :=
  match s with
  | EmptyString => None
  | String c EmptyString => Some c
  | String _ s' => last_char s'
  end.

Definition valid_name (s : string) : bool :=
  match s, last_char s with
  | String c _, Some d =>
      is_alnum c && is_alnum d && string_forallb (λ x, is_alnum x || is_name_sep x) s
  | _, _ => false
  end.

(** [split_first sep s]: [s] cut at the first occurrence of [sep]. *)
Fixpoint split_first (sep s : string) : option (string * string) :=
  match strip_prefix sep s with
  | Some t => Some ("", t)
  | None =>
      match s with
      | EmptyString => None
      | String c s' =>
          match split_first sep s' with
          | Some (h, t) => Some (String c h, t)
          | None => None
          end
      end
  end.

Fixpoint strip_spaces (s : string) : string :=
  match s with
  | String " "%char s' => strip_spaces s'
  | _ => s
  end.

Definition strip (s : string) : string :=
  String.rev (strip_spaces (String.rev (strip_spaces s))).

Inductive specifier_set :=
  | AnyVersion
  | Exactly (v : string)
  | AtLeast (v : string).

Definition valid_version (s : string) : bool :=
  match s with
  | String c _ => is_digit c && string_forallb (λ x, is_digit x || bool_decide (x = "."%char)) s
  | EmptyString => false
  end.

Global Instance types : PackagingTypes :=
  {| SpecifierSet := specifier_set; Marker := string; Version := string |}.

Definition with_name_part (s : string) (spec : specifier_set) (u : option string)
    (m : option string) : option Requirement :=
  let s := strip s in
  match split_first "[" s with
  | Some (n, rest) =>
      match split_first "]" rest with
      | Some (e, EmptyString) =>
          if valid_name (strip n) && valid_name (strip e)
          then Some (mkRequirement _ (strip n) u {[ strip e ]} spec m)
          else None
      | _ => None
      end
  | None =>
      if valid_name s then Some (mkRequirement _ s u ∅ spec m) else None
  end.

Definition with_version_part (s : string) (m : option string) : option Requirement :=
  match split_first "@" s with
  | Some (n, u) =>
      if bool_decide (strip u = "") then None
      else with_name_part n AnyVersion (Some (strip u)) m
  | None =>
      match split_first "==" s with
      | Some (n, v) =>
          if valid_version (strip v) then with_name_part n (Exactly (strip v)) None m
          else None
      | None =>
          match split_first ">=" s with
          | Some (n, v) =>
              if valid_version (strip v) then with_name_part n (AtLeast (strip v)) None m
              else None
          | None => with_name_part s AnyVersion None m
          end
      end
  end.

Definition parse_requirement (s : string) : option Requirement :=
  match split_first ";" s with
  | Some (r, m) =>
      if bool_decide (strip m = "") then None else with_version_part r (Some (strip m))
  | None => with_version_part s None
  end.

Definition specifier_str (spec : specifier_set) : string :=
  match spec with
  | AnyVersion => ""
  | Exactly v => "==" +:+ v
  | AtLeast v => ">=" +:+ v
  end.

Definition requirement_str (r : Requirement) : string :=
  name r +:+ specifier_str (specifier r).

Definition version_lt (a b : string) : bool := String.ltb a b.

Definition satisfies (spec : specifier_set) (v : string) : bool :=
  match spec with
  | AnyVersion => true
  | Exactly w => bool_decide (v = w)
  | AtLeast w => negb (version_lt v w)
  end.

Definition specifier_of_string (s : string) : specifier_set :=
  match strip_prefix "==" s with
  | Some v => Exactly v
  | None =>
      match strip_prefix ">=" s with
      | Some v => AtLeast v
      | None => AnyVersion
      end
  end.

Definition version_parse (s : string) : option string :=
  if valid_version s then Some s else None.

Global Instance packaging : Packaging :=
  Build_Packaging types parse_requirement canonicalize_name requirement_str
    version_parse (λ v, v) version_lt satisfies AnyVersion specifier_of_string
    (λ spec versions, filter (λ v, satisfies spec v) versions).

(** The registry as the list of the messages shown so far; the filters
    have the action ["default"]: a warning is shown once and never raised. *)
Global Instance warnings : Warnings :=
  {| WarningRegistry := list string;
     warning_is_error message registry := false;
     warning_registry message registry :=
       let shown := default [] registry in
       if decide (message ∈ shown) then shown else shown ++ [message] |}.

(** Concrete inputs. *)

Definition requirement (n : string) (spec : specifier_set) : Requirement :=
  mkRequirement types n None ∅ spec None.

Definition numpy : Requirement := requirement "numpy" AnyVersion.
Definition numpy_1 : Requirement := requirement "numpy" (AtLeast "1.0").
Definition pandas : Requirement := requirement "pandas" AnyVersion.

(** A dict that holds [numpy] under two channels. *)
Definition numpy_twice : conda_deps := [("conda-forge", [numpy]); ("defaults", [numpy])].

Definition numpy_once : conda_deps := [("defaults", [numpy])].

(** The catalog before and after version 2.0 of [numpy] is listed. *)
Definition catalog_then : Session :=
  mkSession [mkPackageRow "numpy" "1.0" "python"; mkPackageRow "pandas" "1.5" "python"]
    (λ _, false).

Definition catalog_now : Session :=
  mkSession [mkPackageRow "numpy" "1.0" "python"; mkPackageRow "numpy" "2.0" "python";
             mkPackageRow "pandas" "1.5" "python"]
    (λ _, false).

(** The cache a first lookup of [numpy] leaves. *)
Definition cache_then : package_cache :=
  (validate_requirements_in_snowflake_conda_channel catalog_then [numpy] ∅).2.

(** A solver that knows two packages. *)
Definition two_package_solver : LibMambaSolver :=
  λ channels specs,
    if bool_decide (specs = ["numpy"])
    then Solved [mkPackageRecord "libblas" "3.9"; mkPackageRecord "numpy" "1.0"]
    else SolveRaises PackagesNotFoundError.

(** A session whose query raises [DataError]. *)
Definition catalog_down : Session := mkSession [] (λ _, true).

(** An environment in which only [numpy], version 1.0, is installed. *)
Definition numpy_installed (n : string) : option string :=
  if bool_decide (n = "numpy") then Some "1.0" else None.

Definition numpy_2 : Requirement := requirement "numpy" (Exactly "2.0").

(** A catalog whose second row of [numpy] has a [VERSION] that is not a
    PEP 440 version. *)
Definition catalog_odd : Session :=
  mkSession [mkPackageRow "numpy" "1.0" "python"; mkPackageRow "numpy" "1.0_3" "python";
             mkPackageRow "numpy" "2.0" "python"]
    (λ _, false).

(** The module as it is after import: an empty cache, and no
    [__warningregistry__] yet. *)
Definition imported : module_state :=
  {| _SNOWFLAKE_CONDA_PACKAGE_CACHE := ∅; __warningregistry__ := None |}.

End sample.

(** * Properties *)

(** ** Loops *)

Section loops.
Context {S A : Type}.
Implicit Types (l : list A) (s : S) (body : A → M S unit).

Lemma bind_run {B C} (m : M S B) (k : B → M S C) s :
  (m ≫= k) s = match m s with
               | (Ok a, s') => k a s'
               | (Raise e, s') => (Raise e, s')
               end.
Proof. reflexivity. Qed.

Lemma for_each_cons x l body s :
  for_each (x :: l) body s =
  match body x s with
  | (Ok _, s') => for_each l body s'
  | (Raise e, s') => (Raise e, s')
  end.
Proof. reflexivity. Qed.

Lemma for_each_app l1 l2 body s :
  for_each (l1 ++ l2) body s =
  match for_each l1 body s with
  | (Ok _, s') => for_each l2 body s'
  | (Raise e, s') => (Raise e, s')
  end.
Proof.
  revert s. induction l1 as [|x l1 IH]; intros s; [done|].
  rewrite <- app_comm_cons, !for_each_cons.
  destruct (body x s) as [[[]|e] s']; [apply IH|done].
Qed.

Lemma for_each_ext l body1 body2 s :
  (∀ x s', x ∈ l → body1 x s' = body2 x s') →
  for_each l body1 s = for_each l body2 s.
Proof.
  revert s. induction l as [|x l IH]; intros s Hext; [done|].
  rewrite !for_each_cons, Hext by left.
  destruct (body2 x s) as [[[]|e] s']; [|done].
  apply IH. intros y s'' Hy. apply Hext. by right.
Qed.

(** A loop that only looks for an item to complain about: it raises at the
    first item that satisfies the test and never touches the object. *)
Lemma for_each_scan (test : A → bool) (exc : A → exception) l s :
  for_each l (λ x, if test x then raise (exc x) else mret ()) s =
  match List.find test l with
  | Some x => (Raise (exc x), s)
  | None => (Ok (), s)
  end.
Proof.
  induction l as [|x l IH]; [done|].
  rewrite for_each_cons. simpl. destruct (test x); [done|]. apply IH.
Qed.

End loops.

Lemma for_each_fmap {S A B} (f : B → A) (l : list B) (body : A → M S unit) s :
  for_each (f <$> l) body s = for_each l (body ∘ f) s.
Proof.
  revert s. induction l as [|x l IH]; intros s; [done|].
  rewrite fmap_cons, !for_each_cons. unfold compose at 1.
  destruct (body (f x) s) as [[[]|e] s']; [apply IH|done].
Qed.


Lemma find_none_iff {A} (test : A → bool) (l : list A) :
  List.find test l = None ↔ ∀ x, x ∈ l → test x = false.
Proof.
  split.
  - intros Hf x Hx. apply list_elem_of_In in Hx. by eapply find_none.
  - intros Hall. induction l as [|x l IH]; [done|]. simpl.
    rewrite (Hall x) by left. apply IH. intros y Hy. apply Hall. by right.
Qed.

Lemma find_some_elem {A} (test : A → bool) (l : list A) x :
  List.find test l = Some x → x ∈ l ∧ test x = true.
Proof. intros [Hin Ht]%find_some. by rewrite list_elem_of_In. Qed.

(** ** [str.rpartition] *)

Lemma app_empty (t : string) : "" +:+ t = t.
Proof. reflexivity. Qed.

Lemma app_cons c (s t : string) : String c s +:+ t = String c (s +:+ t).
Proof. reflexivity. Qed.

Lemma strip_prefix_Some sep s t : strip_prefix sep s = Some t ↔ s = sep +:+ t.
Proof.
  revert s. induction sep as [|a sep IH]; intros s; simpl.
  - rewrite app_empty. split; congruence.
  - destruct s as [|b s]; rewrite app_cons; [done|].
    destruct (decide (a = b)) as [->|Hne].
    + rewrite IH. split; [by intros ->|by intros [= ->]].
    + split; [done|]. intros [= -> _]. done.
Qed.

Lemma app_same_length (a b x y : string) :
  a +:+ x = b +:+ y → String.length a = String.length b → a = b ∧ x = y.
Proof.
  revert b. induction a as [|c a IH]; intros [|c' b]; try done.
  rewrite !app_cons. intros [= -> Heq] [= Hlen].
  destruct (IH _ Heq Hlen) as [-> ->]. done.
Qed.

Lemma rsplit_last_is_Some sep s :
  sep ≠ "" → occurs sep s → is_Some (rsplit_last sep s).
Proof.
  intros Hsep. induction s as [|c s IH]; intros (a & b & Hs).
  - destruct a; [|done]. destruct sep; done.
  - simpl. destruct a as [|c' a].
    + rewrite app_empty in Hs. apply strip_prefix_Some in Hs.
      destruct (rsplit_last sep s) as [[]|]; [done|]. by rewrite Hs.
    + rewrite app_cons in Hs. injection Hs as _ Hs.
      destruct IH as [[h t] ->]; [by exists a, b|done].
Qed.

Lemma rsplit_last_Some sep s h t :
  sep ≠ "" → rsplit_last sep s = Some (h, t) → last_occurrence sep s h t.
Proof.
  intros Hsep. revert h t. induction s as [|c s IH]; intros h t; simpl; [done|].
  destruct (rsplit_last sep s) as [[h' t']|] eqn:Hs.
  - intros [= <- <-]. destruct (IH _ _ eq_refl) as [Heq Hlast].
    split; [by rewrite app_cons, <- Heq|].
    intros [|c' a] b; [simpl; lia|].
    rewrite app_cons. intros [= _ Hb]. apply Hlast in Hb. simpl. lia.
  - destruct (strip_prefix sep (String c s)) as [t'|] eqn:Hp; [|done].
    intros [= <- <-]. apply strip_prefix_Some in Hp. split; [done|].
    intros [|c' a] b; [done|]. rewrite app_cons. intros [= _ Hb].
    destruct (rsplit_last_is_Some sep s Hsep) as [? ?]; [by exists a, b|congruence].
Qed.

Lemma rsplit_last_None sep s :
  sep ≠ "" → rsplit_last sep s = None ↔ ¬ occurs sep s.
Proof.
  intros Hsep. split.
  - intros Hnone [? ?]%(rsplit_last_is_Some _ _ Hsep). congruence.
  - intros Hno. destruct (rsplit_last sep s) as [[h t]|] eqn:Hs; [|done].
    destruct Hno. apply rsplit_last_Some in Hs as [Hs _]; [|done].
    by exists h, t.
Qed.

Lemma last_occurrence_unique sep s h t h' t' :
  last_occurrence sep s h t → last_occurrence sep s h' t' → h = h' ∧ t = t'.
Proof.
  intros [Hs Hlast] [Hs' Hlast'].
  pose proof (Hlast _ _ Hs'). pose proof (Hlast' _ _ Hs).
  rewrite Hs in Hs'. apply app_same_length in Hs' as [-> Ht]; [|lia].
  split; [done|]. by apply (inj (String.app sep)) in Ht.
Qed.

Lemma rpartition_found sep s h t :
  sep ≠ "" → last_occurrence sep s h t → rpartition sep s = (h, sep, t).
Proof.
  intros Hsep Hlast. unfold rpartition.
  destruct (rsplit_last sep s) as [[h' t']|] eqn:Hs.
  - apply rsplit_last_Some in Hs; [|done].
    by destruct (last_occurrence_unique _ _ _ _ _ _ Hs Hlast) as [-> ->].
  - apply rsplit_last_None in Hs; [|done]. destruct Hs, Hlast as [-> _].
    by exists h, t.
Qed.

Lemma rpartition_not_found sep s :
  sep ≠ "" → ¬ occurs sep s → rpartition sep s = ("", "", s).
Proof.
  intros Hsep Hno. unfold rpartition.
  by rewrite (proj2 (rsplit_last_None sep s Hsep) Hno).
Qed.


Section env_utils_facts.
Context `{Packaging}.
Implicit Types (r req p_req : Requirement) (l req_list : list Requirement)
  (d : conda_deps) (p_chan_dep item : string * Requirement).

(** ** [append_requirement_list] *)

Lemma same_iff req_a req_b :
  _check_if_requirement_same req_a req_b = true ↔ name req_a = name req_b.
Proof. unfold _check_if_requirement_same. by rewrite bool_decide_eq_true. Qed.

Lemma append_requirement_list_find p_req req_list :
  append_requirement_list p_req req_list =
  match List.find (_check_if_requirement_same p_req) req_list with
  | Some req =>
      (Raise (Exception DuplicateDependencyError
         ("Found duplicate dependencies in pip requirements: "
            +:+ requirement_str req +:+ " and " +:+ requirement_str p_req +:+ ".")),
       req_list)
  | None => (Ok (), req_list ++ [p_req])
  end.
Proof.
  unfold append_requirement_list. rewrite bind_run. unfold get at 1.
  rewrite bind_run, for_each_scan.
  by destruct (List.find _ req_list).
Qed.

Lemma append_requirement_list_fresh p_req req_list :
  name p_req ∉ name <$> req_list →
  append_requirement_list p_req req_list = (Ok (), req_list ++ [p_req]).
Proof.
  intros Hfresh. rewrite append_requirement_list_find.
  destruct (List.find _ req_list) as [req|] eqn:Hf; [|done].
  apply find_some_elem in Hf as [Hin Hsame%same_iff].
  destruct Hfresh. rewrite Hsame. by apply list_elem_of_fmap_2.
Qed.

Lemma append_requirement_list_dup p_req req_list :
  name p_req ∈ name <$> req_list →
  raises DuplicateDependencyError (append_requirement_list p_req req_list).1
  ∧ (append_requirement_list p_req req_list).2 = req_list.
Proof.
  intros (req & Hname & Hin)%list_elem_of_fmap.
  rewrite append_requirement_list_find.
  destruct (List.find _ req_list) as [req'|] eqn:Hf; [done|].
  rewrite find_none_iff in Hf. specialize (Hf req Hin).
  apply not_true_iff_false in Hf. destruct Hf. by apply same_iff.
Qed.

Lemma append_requirement_list_cases p_req req_list :
  (append_requirement_list p_req req_list = (Ok (), req_list ++ [p_req])
   ∧ name p_req ∉ name <$> req_list)
  ∨ (raises DuplicateDependencyError (append_requirement_list p_req req_list).1
     ∧ (append_requirement_list p_req req_list).2 = req_list
     ∧ name p_req ∈ name <$> req_list).
Proof.
  destruct (decide (name p_req ∈ name <$> req_list)) as [Hin|Hnin].
  - right. by destruct (append_requirement_list_dup p_req req_list Hin).
  - left. split; [|done]. by apply append_requirement_list_fresh.
Qed.

Lemma no_two_of_one_name (rs : list Requirement) i j r1 r2 :
  NoDup (name <$> rs) → i ≠ j → rs !! i = Some r1 → rs !! j = Some r2 →
  name r1 ≠ name r2.
Proof.
  intros Hnd Hij Hi Hj Hn. destruct Hij.
  eapply (NoDup_lookup _ i j (name r1) Hnd).
  - by rewrite list_lookup_fmap, Hi.
  - by rewrite list_lookup_fmap, Hj, Hn.
Qed.

(** ** [append_conda_dependency] *)

Lemma flat_items_cons ch l d :
  flat_items ((ch, l) :: d) = ((λ req, (ch, req)) <$> l) ++ flat_items d.
Proof. reflexivity. Qed.

Lemma flat_items_app d1 d2 : flat_items (d1 ++ d2) = flat_items d1 ++ flat_items d2.
Proof. unfold flat_items. apply bind_app. Qed.

Lemma for_each_nested {S} (body : string → Requirement → M S unit) d (s : S) :
  for_each d (λ '(ch, l), for_each l (body ch)) s =
  for_each (flat_items d) (λ item, body item.1 item.2) s.
Proof.
  revert s. induction d as [|[ch l] d IH]; intros s; [done|].
  rewrite flat_items_cons, for_each_app, for_each_fmap, for_each_cons.
  unfold compose. simpl.
  destruct (for_each l (body ch) s) as [[[]|e] s']; [apply IH|done].
Qed.

Lemma append_conda_dependency_find p_chan_dep d :
  append_conda_dependency p_chan_dep d =
  match List.find (λ item, _check_if_requirement_same p_chan_dep.2 item.2) (flat_items d) with
  | Some item =>
      (Raise (if decide (item.1 ≠ p_chan_dep.1)
              then multiple_channels_exception p_chan_dep item
              else same_channel_exception p_chan_dep item), d)
  | None =>
      (Ok (), append_under p_chan_dep.1 p_chan_dep.2 (defaultdict_missing p_chan_dep.1 d))
  end.
Proof.
  destruct p_chan_dep as [p_channel p_req].
  unfold append_conda_dependency. rewrite bind_run. unfold get at 1.
  rewrite bind_run, for_each_nested.
  erewrite for_each_ext; [rewrite (for_each_scan
    (λ item, _check_if_requirement_same p_req item.2)
    (λ item, if decide (item.1 ≠ p_channel)
             then multiple_channels_exception (p_channel, p_req) item
             else same_channel_exception (p_channel, p_req) item))|].
  - simpl. by destruct (List.find _ (flat_items d)).
  - intros [ch req] s' _. simpl.
    destruct (_check_if_requirement_same p_req req); [|done].
    by destruct (decide (ch ≠ p_channel)).
Qed.

Lemma elem_of_flat_items d ch req :
  (ch, req) ∈ flat_items d ↔ ∃ l, (ch, l) ∈ d ∧ req ∈ l.
Proof.
  unfold flat_items. rewrite list_elem_of_bind. split.
  - intros ([ch' l] & Hin & Hd). simpl in Hin.
    apply list_elem_of_fmap in Hin as (req' & [= -> ->] & Hreq). eauto.
  - intros (l & Hd & Hreq). exists (ch, l). split; [|done].
    simpl. apply list_elem_of_fmap. eauto.
Qed.

Lemma occurs_under_flat d n ch :
  occurs_under d n ch ↔ ∃ req, (ch, req) ∈ flat_items d ∧ name req = n.
Proof.
  unfold occurs_under. split.
  - intros (l & req & Hd & Hreq & Hn). exists req. split; [|done].
    apply elem_of_flat_items. eauto.
  - intros (req & (l & Hd & Hreq)%elem_of_flat_items & Hn). eauto.
Qed.

Lemma all_requirements_cons ch l d :
  all_requirements ((ch, l) :: d) = l ++ all_requirements d.
Proof.
  unfold all_requirements. rewrite flat_items_cons, fmap_app. f_equal.
  rewrite <- list_fmap_compose. apply list_fmap_id.
Qed.

Lemma all_requirements_app d1 d2 :
  all_requirements (d1 ++ d2) = all_requirements d1 ++ all_requirements d2.
Proof. unfold all_requirements. by rewrite flat_items_app, fmap_app. Qed.

Lemma append_under_keys k v d : (append_under k v d).*1 = d.*1.
Proof.
  unfold append_under. rewrite <- list_fmap_compose. apply list_fmap_ext.
  intros _ [k' l] _. simpl. by destruct (decide (k' = k)).
Qed.

Lemma append_under_absent k v d : k ∉ d.*1 → append_under k v d = d.
Proof.
  intros Hk. unfold append_under. rewrite <- (list_fmap_id d) at 2.
  apply list_fmap_ext. intros i [k' l] Hi. simpl.
  destruct (decide (k' = k)) as [->|]; [|done].
  destruct Hk. apply list_elem_of_fmap. exists (k, l).
  split; [done|]. by eapply list_elem_of_lookup_2.
Qed.

Lemma append_under_cons k v k' l d :
  append_under k v ((k', l) :: d) =
  (if decide (k' = k) then (k', l ++ [v]) else (k', l)) :: append_under k v d.
Proof. reflexivity. Qed.

(** What [conda_chan_deps[p_channel].append(p_req)] makes of the dict. *)
Lemma appended_keys k v d :
  (append_under k v (defaultdict_missing k d)).*1 =
  if decide (k ∈ d.*1) then d.*1 else d.*1 ++ [k].
Proof.
  rewrite append_under_keys. unfold defaultdict_missing.
  destruct (decide (k ∈ d.*1)); [done|]. by rewrite fmap_app.
Qed.

Lemma appended_wf k v d :
  dict_wf d → dict_wf (append_under k v (defaultdict_missing k d)).
Proof.
  unfold dict_wf. rewrite appended_keys. intros Hd.
  destruct (decide (k ∈ d.*1)); [done|].
  apply NoDup_app. split; [done|]. split; [|apply NoDup_singleton].
  intros x Hx ->%list_elem_of_singleton. done.
Qed.

Lemma appended_present k v d :
  dict_wf d → k ∈ d.*1 →
  all_requirements (append_under k v d) ≡ₚ all_requirements d ++ [v]
  ∧ (list_to_map (append_under k v d) : gmap string (list Requirement)) =
    <[k := default [] ((list_to_map d : gmap string (list Requirement)) !! k) ++ [v]]>
      (list_to_map d).
Proof.
  unfold dict_wf. induction d as [|[k' l] d IH]; intros Hd Hk.
  { by apply elem_of_nil in Hk. }
  rewrite fmap_cons in Hd, Hk. simpl in Hd, Hk.
  apply NoDup_cons in Hd as [Hk' Hd].
  rewrite append_under_cons. destruct (decide (k' = k)) as [->|Hne].
  - rewrite (append_under_absent k v d Hk'), !all_requirements_cons. split.
    + rewrite <- !(assoc_L (++)). apply Permutation_app_head, Permutation_app_comm.
    + simpl. rewrite lookup_insert_eq. simpl. by rewrite insert_insert_eq.
  - apply elem_of_cons in Hk as [?|Hk]; [done|].
    destruct (IH Hd Hk) as [IHp IHm].
    rewrite !all_requirements_cons. split.
    + by rewrite IHp, (assoc_L (++)).
    + simpl. rewrite IHm, lookup_insert_ne by done. by apply insert_insert_ne.
Qed.

Lemma appended_requirements k v d :
  dict_wf d →
  all_requirements (append_under k v (defaultdict_missing k d))
    ≡ₚ all_requirements d ++ [v].
Proof.
  intros Hd. unfold defaultdict_missing. destruct (decide (k ∈ d.*1)) as [Hk|Hk].
  - by apply appended_present.
  - unfold append_under. rewrite fmap_app, all_requirements_app.
    fold (append_under k v d). rewrite (append_under_absent k v d Hk).
    simpl. rewrite decide_True by done. simpl.
    by rewrite all_requirements_cons.
Qed.

Lemma appended_map k v d :
  dict_wf d →
  (list_to_map (append_under k v (defaultdict_missing k d))
     : gmap string (list Requirement)) =
  <[k := default [] ((list_to_map d : gmap string (list Requirement)) !! k) ++ [v]]>
    (list_to_map d).
Proof.
  intros Hd. unfold defaultdict_missing. destruct (decide (k ∈ d.*1)) as [Hk|Hk].
  - by apply appended_present.
  - unfold append_under. rewrite fmap_app.
    fold (append_under k v d). rewrite (append_under_absent k v d Hk).
    simpl. rewrite decide_True by done. simpl.
    rewrite (not_elem_of_list_to_map_1 _ _ Hk). simpl.
    rewrite list_to_map_app. simpl. rewrite insert_empty.
    rewrite <- insert_union_singleton_r; [done|].
    by apply not_elem_of_list_to_map_1.
Qed.

(** ** Conflict detection and atomicity *)

Lemma append_conda_dependency_found p_chan_dep d item :
  List.find (λ item, _check_if_requirement_same p_chan_dep.2 item.2) (flat_items d)
    = Some item →
  occurs_under d (name p_chan_dep.2) item.1.
Proof.
  intros [Hin Hsame%same_iff]%find_some_elem. destruct item as [ch req].
  apply occurs_under_flat. by exists req.
Qed.

Lemma append_conda_dependency_not_found p_chan_dep d ch :
  List.find (λ item, _check_if_requirement_same p_chan_dep.2 item.2) (flat_items d)
    = None →
  ¬ occurs_under d (name p_chan_dep.2) ch.
Proof.
  rewrite find_none_iff. intros Hnone (req & Hin & Hn)%occurs_under_flat.
  specialize (Hnone _ Hin). apply not_true_iff_false in Hnone.
  destruct Hnone. by apply same_iff.
Qed.

(** ** [_validate_pip_requirement_string] *)

Lemma validate_pip_requirement_string_ok req_str r :
  _validate_pip_requirement_string req_str = Ok r ↔
  ∃ r0, parse_requirement req_str = Some r0 ∧ marker r0 = None
        ∧ r = set_name r0 (canonicalize_name (name r0)).
Proof.
  unfold _validate_pip_requirement_string.
  destruct (parse_requirement req_str) as [r0|].
  - simpl. destruct (marker r0) eqn:Hm; simpl.
    + split; [done|]. intros (r0' & [= <-] & Hm' & _). congruence.
    + split; [intros [= <-]; eauto|].
      intros (r0' & [= <-] & _ & ->). done.
  - split; [done|]. by intros (r0 & ? & _).
Qed.

Lemma validate_pip_requirement_string_raise req_str e :
  _validate_pip_requirement_string req_str = Raise e → exc_class e = ValueError.
Proof.
  unfold _validate_pip_requirement_string.
  destruct (parse_requirement req_str) as [r0|]; [|by intros [= <-]].
  simpl. destruct (marker r0); simpl; [by intros [= <-]|done].
Qed.

(** C4: [_validate_pip_requirement_string] raises [ValueError] exactly when
    the string is not a valid requirement or carries a marker; otherwise it
    returns the parsed requirement with its name canonicalised and its
    specifier, extras and url as parsed. *)
Theorem validate_pip_requirement_string_spec req_str :
  (raises ValueError (_validate_pip_requirement_string req_str) ↔
     parse_requirement req_str = None
     ∨ ∃ r0, parse_requirement req_str = Some r0 ∧ is_Some (marker r0))
  ∧ (raises ValueError (_validate_pip_requirement_string req_str)
     ∨ ∃ r0 r, parse_requirement req_str = Some r0
         ∧ _validate_pip_requirement_string req_str = Ok r
         ∧ name r = canonicalize_name (name r0)
         ∧ specifier r = specifier r0 ∧ extras r = extras r0 ∧ url r = url r0
         ∧ marker r = None ∧ marker r0 = None).
Proof.
  unfold _validate_pip_requirement_string.
  destruct (parse_requirement req_str) as [r0|]; simpl; [|naive_solver].
  destruct (marker r0) as [m|] eqn:Hm; simpl.
  - split; [|by left]. split; [|done]. intros _. right. exists r0.
    rewrite Hm. eauto.
  - split.
    + split; [done|]. intros [|(r0' & [= <-] & [m Hm'])]; congruence.
    + right. exists r0, (set_name r0 (canonicalize_name (name r0))). done.
Qed.

(** ** The list validators *)

Lemma pip_body_run req_str req_list :
  pip_body req_str req_list =
  match _validate_pip_requirement_string req_str with
  | Ok p_req => append_requirement_list p_req req_list
  | Raise e => (Raise e, req_list)
  end.
Proof. reflexivity. Qed.

Lemma pip_loop_ok strs : ∀ acc acc',
  for_each strs pip_body acc = (Ok (), acc') →
  ∃ rs, acc' = acc ++ rs
        ∧ Forall2 (λ s r, _validate_pip_requirement_string s = Ok r) strs rs
        ∧ (NoDup (name <$> acc) → NoDup (name <$> acc')).
Proof.
  induction strs as [|s strs IH]; intros acc acc' Hrun.
  - inversion Hrun; subst. exists []. by rewrite app_nil_r.
  - rewrite for_each_cons, pip_body_run in Hrun.
    destruct (_validate_pip_requirement_string s) as [p_req|e] eqn:Hs; [|done].
    destruct (append_requirement_list_cases p_req acc) as [[Heq Hfresh]|(Hr & _ & _)].
    + rewrite Heq in Hrun. apply IH in Hrun as (rs & -> & Hall & Hnd).
      exists (p_req :: rs). split; [by rewrite <- (assoc_L (++))|].
      split; [by constructor|]. intros Hacc. apply Hnd.
      rewrite fmap_app. apply NoDup_app. split; [done|].
      split; [|apply NoDup_singleton].
      by intros x Hx ->%list_elem_of_singleton.
    + by destruct (append_requirement_list p_req acc) as [[[]|e] acc''].
Qed.

Lemma pip_loop_raise strs : ∀ acc acc' e,
  for_each strs pip_body acc = (Raise e, acc') →
  exc_class e = DuplicateDependencyError
  ∨ ∃ s, s ∈ strs ∧ _validate_pip_requirement_string s = Raise e.
Proof.
  induction strs as [|s strs IH]; intros acc acc' e Hrun; [done|].
  rewrite for_each_cons, pip_body_run in Hrun.
  destruct (_validate_pip_requirement_string s) as [p_req|e'] eqn:Hs.
  - destruct (append_requirement_list_cases p_req acc) as [[Heq _]|(Hr & _ & _)].
    + rewrite Heq in Hrun. apply IH in Hrun as [?|(s' & ? & ?)]; [by left|].
      right. exists s'. split; [by right|done].
    + destruct (append_requirement_list p_req acc) as [[[]|e''] acc'']; [done|].
      inversion Hrun; subst. by left.
  - inversion Hrun; subst. right. exists s. split; [by left|done].
Qed.

Lemma validate_pip_requirement_string_list_unfold strs :
  validate_pip_requirement_string_list strs = run_on [] (for_each strs pip_body).
Proof. reflexivity. Qed.

Lemma validate_pip_requirement_string_list_ok strs rs :
  validate_pip_requirement_string_list strs = Ok rs →
  Forall2 (λ s r, _validate_pip_requirement_string s = Ok r) strs rs
  ∧ NoDup (name <$> rs).
Proof.
  rewrite validate_pip_requirement_string_list_unfold. unfold run_on.
  destruct (for_each strs pip_body []) as [[[]|e] acc'] eqn:Hrun; [|done].
  intros [= <-]. apply pip_loop_ok in Hrun as (rs & -> & Hall & Hnd).
  split; [done|]. apply Hnd. constructor.
Qed.

Lemma validate_pip_requirement_string_list_raise strs e :
  validate_pip_requirement_string_list strs = Raise e →
  exc_class e = DuplicateDependencyError
  ∨ ∃ s, s ∈ strs ∧ _validate_pip_requirement_string s = Raise e.
Proof.
  rewrite validate_pip_requirement_string_list_unfold. unfold run_on.
  destruct (for_each strs pip_body []) as [[[]|e'] acc'] eqn:Hrun; [done|].
  intros [= <-]. by eapply pip_loop_raise.
Qed.

Lemma list_map_ok {A B} (f : A → result B) (xs : list A) ys :
  list_map f xs = Ok ys ↔ Forall2 (λ x y, f x = Ok y) xs ys.
Proof.
  revert ys. induction xs as [|x xs IH]; intros ys; simpl.
  - split; [intros [= <-]; constructor|by inversion 1].
  - destruct (f x) as [y|e] eqn:Hx; simpl.
    + destruct (list_map f xs) as [ys'|e] eqn:Hxs; simpl.
      * split.
        -- intros [= <-]. constructor; [done|]. by apply IH.
        -- inversion 1 as [|? y' ? ys'' Hy Hys]; subst.
           apply IH in Hys as [= <-]. congruence.
      * split; [done|]. inversion 1 as [|? y' ? ys'' Hy Hys]; subst.
        by apply IH in Hys.
    + split; [done|]. inversion 1; congruence.
Qed.

Lemma list_map_raise {A B} (f : A → result B) (xs : list A) e :
  list_map f xs = Raise e → ∃ x, x ∈ xs ∧ f x = Raise e.
Proof.
  induction xs as [|x xs IH]; simpl; [done|].
  destruct (f x) as [y|e'] eqn:Hx; simpl.
  - destruct (list_map f xs) as [ys'|e'']; simpl; [done|].
    intros [= ->]. destruct IH as (x' & ? & ?); [done|].
    exists x'. split; [by right|done].
  - intros [= ->]. exists x. split; [by left|done].
Qed.

Lemma elem_of_names_all_requirements d n :
  n ∈ name <$> all_requirements d ↔ ∃ ch, occurs_under d n ch.
Proof.
  unfold all_requirements. rewrite list_elem_of_fmap. split.
  - intros (req & -> & ([ch req'] & [= <-] & Hin)%list_elem_of_fmap).
    exists ch. apply occurs_under_flat. eauto.
  - intros (ch & (req & Hin & <-)%occurs_under_flat).
    exists req. split; [done|]. apply list_elem_of_fmap. by exists (ch, req).
Qed.

Lemma append_conda_dependency_cases p_chan_dep d :
  (append_conda_dependency p_chan_dep d =
     (Ok (), append_under p_chan_dep.1 p_chan_dep.2 (defaultdict_missing p_chan_dep.1 d))
   ∧ name p_chan_dep.2 ∉ name <$> all_requirements d)
  ∨ ((raises DuplicateDependencyError (append_conda_dependency p_chan_dep d).1
      ∨ raises DuplicateDependencyInMultipleChannelsError
          (append_conda_dependency p_chan_dep d).1)
     ∧ (append_conda_dependency p_chan_dep d).2 = d
     ∧ name p_chan_dep.2 ∈ name <$> all_requirements d).
Proof.
  rewrite append_conda_dependency_find.
  destruct (List.find _ (flat_items d)) as [item|] eqn:Hfind.
  - right. split; [|split; [done|]].
    + simpl. destruct (decide (item.1 ≠ p_chan_dep.1)); simpl; auto.
    + apply elem_of_names_all_requirements. exists item.1.
      by eapply append_conda_dependency_found.
  - left. split; [done|]. intros [ch Hocc]%elem_of_names_all_requirements.
    by eapply append_conda_dependency_not_found.
Qed.

Lemma conda_loop_ok vs : ∀ d d',
  dict_wf d →
  for_each vs conda_body d = (Ok (), d') →
  dict_wf d' ∧ all_requirements d' ≡ₚ all_requirements d ++ vs.*2
  ∧ (NoDup (name <$> all_requirements d) → NoDup (name <$> all_requirements d')).
Proof.
  induction vs as [|[p_channel p_req] vs IH]; intros d d' Hwf Hrun.
  - inversion Hrun; subst. by rewrite app_nil_r.
  - rewrite for_each_cons in Hrun.
    change (conda_body (p_channel, p_req) d)
      with (append_conda_dependency (p_channel, p_req) d) in Hrun.
    destruct (append_conda_dependency_cases (p_channel, p_req) d)
      as [[Heq Hfresh]|(Hr & _ & _)].
    + rewrite Heq in Hrun. simpl in *.
      pose proof (appended_requirements p_channel p_req d Hwf) as Hperm.
      apply IH in Hrun as (Hwf' & Hp & Hnd); [|by apply appended_wf].
      split; [done|]. split.
      * rewrite Hp, Hperm, <- (assoc_L (++)). done.
      * intros Hd. apply Hnd. rewrite Hperm, fmap_app.
        apply NoDup_app. split; [done|]. split; [|apply NoDup_singleton].
        by intros x Hx ->%list_elem_of_singleton.
    + destruct (append_conda_dependency (p_channel, p_req) d) as [[[]|e] d''];
        [by destruct Hr|done].
Qed.

Lemma conda_loop_raise vs : ∀ d d' e,
  for_each vs conda_body d = (Raise e, d') →
  exc_class e = DuplicateDependencyError
  ∨ exc_class e = DuplicateDependencyInMultipleChannelsError.
Proof.
  induction vs as [|[p_channel p_req] vs IH]; intros d d' e Hrun; [done|].
  rewrite for_each_cons in Hrun.
  change (conda_body (p_channel, p_req) d)
    with (append_conda_dependency (p_channel, p_req) d) in Hrun.
  destruct (append_conda_dependency_cases (p_channel, p_req) d)
    as [[Heq _]|(Hr & _ & _)].
  - rewrite Heq in Hrun. by eapply IH.
  - destruct (append_conda_dependency (p_channel, p_req) d) as [[[]|e'] d''];
      [by destruct Hr|]. by inversion Hrun; subst.
Qed.

Lemma validate_conda_dependency_string_list_unfold strs :
  validate_conda_dependency_string_list strs =
  match list_map _validate_conda_dependency_string strs with
  | Ok vs => run_on [] (for_each vs conda_body)
  | Raise e => Raise e
  end.
Proof. reflexivity. Qed.

Lemma validate_conda_dependency_string_list_ok strs d :
  validate_conda_dependency_string_list strs = Ok d →
  ∃ vs, Forall2 (λ s v, _validate_conda_dependency_string s = Ok v) strs vs
        ∧ dict_wf d ∧ all_requirements d ≡ₚ vs.*2
        ∧ NoDup (name <$> all_requirements d).
Proof.
  rewrite validate_conda_dependency_string_list_unfold.
  destruct (list_map _ strs) as [vs|e] eqn:Hmap; [|done].
  apply list_map_ok in Hmap. unfold run_on.
  destruct (for_each vs conda_body []) as [[[]|e] d'] eqn:Hrun; [|done].
  intros [= <-]. apply conda_loop_ok in Hrun as (Hwf & Hp & Hnd); [|constructor].
  exists vs. split; [done|]. split; [done|]. split; [done|].
  apply Hnd. constructor.
Qed.

Lemma validate_conda_dependency_string_list_raise strs e :
  validate_conda_dependency_string_list strs = Raise e →
  exc_class e = DuplicateDependencyError
  ∨ exc_class e = DuplicateDependencyInMultipleChannelsError
  ∨ ∃ s, s ∈ strs ∧ _validate_conda_dependency_string s = Raise e.
Proof.
  rewrite validate_conda_dependency_string_list_unfold.
  destruct (list_map _ strs) as [vs|e'] eqn:Hmap.
  - unfold run_on.
    destruct (for_each vs conda_body []) as [[[]|e''] d'] eqn:Hrun; [done|].
    intros [= <-]. apply conda_loop_raise in Hrun. tauto.
  - intros [= <-]. right. right. by apply list_map_raise.
Qed.

Lemma validate_conda_dependency_string_parts dep_str ch r :
  _validate_conda_dependency_string dep_str = Ok (ch, r) →
  ch = channel_part dep_str
  ∧ _validate_pip_requirement_string (requirement_part dep_str) = Ok r.
Proof.
  unfold _validate_conda_dependency_string, channel_part, requirement_part.
  destruct (rpartition "::" dep_str) as [[h sep] t]. simpl.
  destruct (_validate_pip_requirement_string t) as [r'|e]; simpl; [|done].
  repeat case_match; by intros [= <- <-].
Qed.

Lemma validated_canonical_name req_str r :
  _validate_pip_requirement_string req_str = Ok r → canonical_name r.
Proof.
  intros (r0 & _ & _ & ->)%validate_pip_requirement_string_ok.
  by exists (name r0).
Qed.

Lemma one_channel_per_name d n ch1 ch2 :
  NoDup (name <$> all_requirements d) →
  occurs_under d n ch1 → occurs_under d n ch2 → ch1 = ch2.
Proof.
  intros Hnd (r1 & Hin1 & Hn1)%occurs_under_flat (r2 & Hin2 & Hn2)%occurs_under_flat.
  apply list_elem_of_lookup in Hin1 as [i Hi], Hin2 as [j Hj].
  destruct (decide (i = j)) as [->|Hij]; [congruence|].
  destruct (no_two_of_one_name (all_requirements d) i j r1 r2 Hnd Hij).
  - unfold all_requirements. by rewrite list_lookup_fmap, Hi.
  - unfold all_requirements. by rewrite list_lookup_fmap, Hj.
  - congruence.
Qed.

(** C1 (amended): on a dict in which the appended requirement's package name
    does not occur both under the appended channel and under another channel,
    [append_conda_dependency] raises [DuplicateDependencyInMultipleChannelsError]
    exactly when the name occurs under a different channel, raises
    [DuplicateDependencyError] exactly when it occurs under the same channel,
    and otherwise appends the requirement to its channel's list. Every dict
    that [validate_conda_dependency_string_list] returns is such a dict. *)
Theorem append_conda_dependency_conflicts :
  (∀ d p_chan_dep,
     dict_wf d →
     ¬ (occurs_under d (name p_chan_dep.2) p_chan_dep.1
        ∧ ∃ ch, ch ≠ p_chan_dep.1 ∧ occurs_under d (name p_chan_dep.2) ch) →
     detects_channel_conflicts d p_chan_dep)
  ∧ (∀ dep_str_list d p_chan_dep,
       validate_conda_dependency_string_list dep_str_list = Ok d →
       detects_channel_conflicts d p_chan_dep).
Proof.
  assert (∀ d p_chan_dep,
     dict_wf d →
     ¬ (occurs_under d (name p_chan_dep.2) p_chan_dep.1
        ∧ ∃ ch, ch ≠ p_chan_dep.1 ∧ occurs_under d (name p_chan_dep.2) ch) →
     detects_channel_conflicts d p_chan_dep) as Hmain.
  { intros d p_chan_dep Hwf Hone. unfold detects_channel_conflicts.
    rewrite append_conda_dependency_find.
    destruct (List.find _ (flat_items d)) as [item|] eqn:Hfind.
    - pose proof (append_conda_dependency_found _ _ _ Hfind) as Hocc.
      destruct (decide (item.1 ≠ p_chan_dep.1)) as [Hne|Heq%dec_stable]; simpl.
      + split; [naive_solver|]. split; [|intros Hno; by destruct (Hno item.1)].
        split; [done|]. intros Hsame. destruct Hone. eauto.
      + rewrite Heq in Hocc. split; [|split; [done|]].
        * split; [done|]. intros Hother. by destruct Hone.
        * intros Hno. by destruct (Hno p_chan_dep.1).
    - simpl. split; [|split].
      + split; [done|]. intros (ch & _ & Hocc).
        by eapply append_conda_dependency_not_found.
      + split; [done|]. by eapply append_conda_dependency_not_found.
      + intros _. split; [done|]. split; [by apply appended_wf|by apply appended_map]. }
  split; [done|].
  intros dep_str_list d p_chan_dep
    (vs & _ & Hwf & _ & Hnd)%validate_conda_dependency_string_list_ok.
  apply Hmain; [done|]. intros (Hsame & ch & Hne & Hother).
  destruct Hne. by eapply one_channel_per_name.
Qed.

(** C8: when [append_requirement_list] raises [DuplicateDependencyError] the
    list is as it was, and when [append_conda_dependency] raises
    [DuplicateDependencyError] or [DuplicateDependencyInMultipleChannelsError]
    the dict is as it was: same keys, same lists. *)
Theorem append_raises_unchanged req_list p_req d p_chan_dep :
  (raises DuplicateDependencyError (append_requirement_list p_req req_list).1 →
     (append_requirement_list p_req req_list).2 = req_list)
  ∧ (raises DuplicateDependencyError (append_conda_dependency p_chan_dep d).1
     ∨ raises DuplicateDependencyInMultipleChannelsError
         (append_conda_dependency p_chan_dep d).1 →
     (append_conda_dependency p_chan_dep d).2 = d).
Proof.
  split.
  - rewrite append_requirement_list_find.
    by destruct (List.find _ req_list).
  - rewrite append_conda_dependency_find.
    destruct (List.find _ (flat_items d)); [done|]. simpl. by intros [[]|[]].
Qed.

(** C2: a list returned by [validate_pip_requirement_string_list] holds at
    most one requirement per package name, a dict returned by
    [validate_conda_dependency_string_list] holds each package name at most
    once over all its channel lists together, and these names are canonical. *)
Theorem validated_names_are_unique req_str_list rs dep_str_list d :
  validate_pip_requirement_string_list req_str_list = Ok rs →
  validate_conda_dependency_string_list dep_str_list = Ok d →
  (NoDup (name <$> rs) ∧ Forall canonical_name rs)
  ∧ (NoDup (name <$> all_requirements d) ∧ Forall canonical_name (all_requirements d)
     ∧ dict_wf d).
Proof.
  intros [Hall Hnd]%validate_pip_requirement_string_list_ok
    (vs & Hvs & Hwf & Hp & Hnd')%validate_conda_dependency_string_list_ok.
  split; [split; [done|]|split; [done|split; [|done]]].
  - apply Forall_forall. intros r Hr.
    apply list_elem_of_lookup in Hr as [i Hi].
    destruct (Forall2_lookup_r _ _ _ _ _ Hall Hi) as (s & _ & Hs).
    by eapply validated_canonical_name.
  - apply Forall_forall. intros r Hr. rewrite Hp in Hr.
    apply list_elem_of_fmap in Hr as ([ch r'] & -> & Hin).
    apply list_elem_of_lookup in Hin as [i Hi].
    destruct (Forall2_lookup_r _ _ _ _ _ Hvs Hi) as (s & _ & Hs).
    apply validate_conda_dependency_string_parts in Hs as [_ Hs].
    by eapply validated_canonical_name.
Qed.

(** C3 (amended): when the name of the appended requirement is already in the
    list, [append_requirement_list] does not merge: it raises
    [DuplicateDependencyError] and leaves the list as it was; likewise
    [validate_pip_requirement_string_list] raises [DuplicateDependencyError]
    on two valid requirement strings of the same canonical name. *)
Theorem append_requirement_list_rejects_duplicate req_list p_req s1 s2 r1 r2 :
  name p_req ∈ name <$> req_list →
  _validate_pip_requirement_string s1 = Ok r1 →
  _validate_pip_requirement_string s2 = Ok r2 →
  name r1 = name r2 →
  raises DuplicateDependencyError (append_requirement_list p_req req_list).1
  ∧ (append_requirement_list p_req req_list).2 = req_list
  ∧ raises DuplicateDependencyError (validate_pip_requirement_string_list [s1; s2]).
Proof.
  intros Hin Hs1 Hs2 Hname.
  destruct (append_requirement_list_dup p_req req_list Hin) as [Hr Hsame].
  split; [done|]. split; [done|].
  rewrite validate_pip_requirement_string_list_unfold. unfold run_on.
  rewrite !for_each_cons, pip_body_run, Hs1.
  rewrite append_requirement_list_fresh by (simpl; apply not_elem_of_nil).
  rewrite for_each_cons, pip_body_run, Hs2. simpl.
  destruct (append_requirement_list_dup r2 [r1]) as [Hr2 _].
  { simpl. rewrite Hname. by left. }
  by destruct (append_requirement_list r2 [r1]) as [[[]|e] l'].
Qed.

(** ** Canonical names and duplicates *)

Lemma validated_name req_str r r0 :
  _validate_pip_requirement_string req_str = Ok r →
  parse_requirement req_str = Some r0 →
  name r = canonicalize_name (name r0).
Proof.
  intros (r0' & Hp & _ & ->)%validate_pip_requirement_string_ok Hp'.
  by simplify_eq.
Qed.

Lemma returns_ok {A} (x : result A) : returns x → ∃ a, x = Ok a.
Proof. destruct x; [eauto|done]. Qed.

(** C9 (amended): validation compares canonical names. When two strings of
    a list have names that canonicalise to the same name, and every string
    of the list is itself accepted, [validate_pip_requirement_string_list] raises
    [DuplicateDependencyError] and [validate_conda_dependency_string_list]
    raises one of the two duplicate errors; on the two strings alone the
    conda validator raises [DuplicateDependencyError] when their channels are
    equal and [DuplicateDependencyInMultipleChannelsError] when they differ. *)
Theorem canonical_names_collide :
  (∀ strs i j s1 s2 r1 r2,
     i ≠ j → strs !! i = Some s1 → strs !! j = Some s2 →
     parse_requirement s1 = Some r1 → parse_requirement s2 = Some r2 →
     canonicalize_name (name r1) = canonicalize_name (name r2) →
     Forall (λ s, returns (_validate_pip_requirement_string s)) strs →
     raises DuplicateDependencyError (validate_pip_requirement_string_list strs))
  ∧ (∀ deps i j dep1 dep2 r1 r2,
       i ≠ j → deps !! i = Some dep1 → deps !! j = Some dep2 →
       parse_requirement (requirement_part dep1) = Some r1 →
       parse_requirement (requirement_part dep2) = Some r2 →
       canonicalize_name (name r1) = canonicalize_name (name r2) →
       Forall (λ s, returns (_validate_conda_dependency_string s)) deps →
       raises DuplicateDependencyError (validate_conda_dependency_string_list deps)
       ∨ raises DuplicateDependencyInMultipleChannelsError
           (validate_conda_dependency_string_list deps))
  ∧ (∀ dep1 dep2 r1 r2,
       parse_requirement (requirement_part dep1) = Some r1 →
       parse_requirement (requirement_part dep2) = Some r2 →
       canonicalize_name (name r1) = canonicalize_name (name r2) →
       returns (_validate_conda_dependency_string dep1) →
       returns (_validate_conda_dependency_string dep2) →
       raises (if decide (channel_part dep1 = channel_part dep2)
               then DuplicateDependencyError
               else DuplicateDependencyInMultipleChannelsError)
         (validate_conda_dependency_string_list [dep1; dep2])).
Proof.
  split; [|split].
  - intros strs i j s1 s2 r1 r2 Hij Hi Hj Hp1 Hp2 Hcanon Hall.
    destruct (validate_pip_requirement_string_list strs) as [rs|e] eqn:Hv.
    + apply validate_pip_requirement_string_list_ok in Hv as [Hf Hnd].
      destruct (Forall2_lookup_l _ _ _ _ _ Hf Hi) as (v1 & Hv1 & Hs1).
      destruct (Forall2_lookup_l _ _ _ _ _ Hf Hj) as (v2 & Hv2 & Hs2).
      destruct (no_two_of_one_name rs i j v1 v2 Hnd Hij Hv1 Hv2).
      by rewrite (validated_name _ _ _ Hs1 Hp1), (validated_name _ _ _ Hs2 Hp2).
    + apply validate_pip_requirement_string_list_raise in Hv
        as [Hc|(s & Hs & Hraise)]; [done|].
      rewrite Forall_forall in Hall. specialize (Hall s Hs).
      by rewrite Hraise in Hall.
  - intros deps i j dep1 dep2 r1 r2 Hij Hi Hj Hp1 Hp2 Hcanon Hall.
    destruct (validate_conda_dependency_string_list deps) as [d|e] eqn:Hv.
    + apply validate_conda_dependency_string_list_ok in Hv
        as (vs & Hf & _ & Hp & Hnd).
      destruct (Forall2_lookup_l _ _ _ _ _ Hf Hi) as ([c1 v1] & Hv1 & Hs1).
      destruct (Forall2_lookup_l _ _ _ _ _ Hf Hj) as ([c2 v2] & Hv2 & Hs2).
      apply validate_conda_dependency_string_parts in Hs1 as [_ Hs1].
      apply validate_conda_dependency_string_parts in Hs2 as [_ Hs2].
      rewrite Hp in Hnd.
      destruct (no_two_of_one_name vs.*2 i j v1 v2 Hnd Hij).
      * by rewrite list_lookup_fmap, Hv1.
      * by rewrite list_lookup_fmap, Hv2.
      * by rewrite (validated_name _ _ _ Hs1 Hp1), (validated_name _ _ _ Hs2 Hp2).
    + apply validate_conda_dependency_string_list_raise in Hv
        as [Hc|[Hc|(s & Hs & Hraise)]]; [by left|by right|].
      rewrite Forall_forall in Hall. specialize (Hall s Hs).
      by rewrite Hraise in Hall.
  - intros dep1 dep2 r1 r2 Hp1 Hp2 Hcanon [[c1 v1] Hd1]%returns_ok [[c2 v2] Hd2]%returns_ok.
    destruct (validate_conda_dependency_string_parts _ _ _ Hd1) as [-> Hs1].
    destruct (validate_conda_dependency_string_parts _ _ _ Hd2) as [-> Hs2].
    assert (name v2 = name v1) as Hname.
    { by rewrite (validated_name _ _ _ Hs1 Hp1), (validated_name _ _ _ Hs2 Hp2). }
    rewrite validate_conda_dependency_string_list_unfold.
    assert (list_map _validate_conda_dependency_string [dep1; dep2]
            = Ok [(channel_part dep1, v1); (channel_part dep2, v2)]) as ->.
    { apply list_map_ok. by repeat constructor. }
    assert (append_conda_dependency (channel_part dep1, v1) []
            = (Ok (), [(channel_part dep1, [v1])])) as Hfirst.
    { rewrite append_conda_dependency_find. simpl.
      unfold defaultdict_missing, append_under. simpl.
      by rewrite decide_True. }
    assert (append_conda_dependency (channel_part dep2, v2) [(channel_part dep1, [v1])]
            = (Raise (if decide (channel_part dep1 ≠ channel_part dep2)
                      then multiple_channels_exception (channel_part dep2, v2)
                             (channel_part dep1, v1)
                      else same_channel_exception (channel_part dep2, v2)
                             (channel_part dep1, v1)),
               [(channel_part dep1, [v1])])) as Hsecond.
    { rewrite append_conda_dependency_find. simpl.
      unfold _check_if_requirement_same. by rewrite bool_decide_eq_true_2. }
    unfold run_on. rewrite for_each_cons.
    change (conda_body (channel_part dep1, v1) [])
      with (append_conda_dependency (channel_part dep1, v1) []).
    rewrite Hfirst, for_each_cons.
    change (conda_body (channel_part dep2, v2) [(channel_part dep1, [v1])])
      with (append_conda_dependency (channel_part dep2, v2) [(channel_part dep1, [v1])]).
    rewrite Hsecond.
    destruct (decide (channel_part dep1 = channel_part dep2)) as [Heq|Hne].
    + by rewrite decide_False by (intros Hne; by destruct Hne).
    + by rewrite decide_True by done.
Qed.

(** ** [_validate_conda_dependency_string] *)

Lemma truthy_extras_or_url r :
  truthy_set (extras r) = false ∧ truthy_str (url r) = false ↔ ¬ has_extras_or_url r.
Proof.
  unfold has_extras_or_url, truthy_set, truthy_str.
  rewrite bool_decide_eq_false. split.
  - intros [He Hu] [?|(u & Hurl & Hne)]; [done|].
    rewrite Hurl in Hu. by apply bool_decide_eq_false in Hu.
  - intros Hno. split; [intros ?; apply Hno; by left|].
    destruct (url r) as [u|]; [|done]. apply bool_decide_eq_false.
    intros ?. apply Hno. right. eauto.
Qed.

(** C10: [_validate_conda_dependency_string] takes channel ["defaults"] and
    the whole string as requirement when the string has no ["::"], and cuts
    at the last ["::"] otherwise (an empty channel becoming ["defaults"]);
    an invalid requirement part raises its [ValueError]; a requirement part
    with extras or a url raises [ValueError] unless the channel is exactly
    ["pip"], in which case, as without extras and url, the channel and the
    requirement are returned. *)
Theorem validate_conda_dependency_string_spec dep_str :
  (¬ occurs "::" dep_str →
     channel_part dep_str = "defaults" ∧ requirement_part dep_str = dep_str)
  ∧ (∀ h t, last_occurrence "::" dep_str h t →
       channel_part dep_str = (if decide (h = "") then "defaults" else h)
       ∧ requirement_part dep_str = t)
  ∧ (∀ e, _validate_pip_requirement_string (requirement_part dep_str) = Raise e →
       _validate_conda_dependency_string dep_str = Raise e ∧ exc_class e = ValueError)
  ∧ (∀ r, _validate_pip_requirement_string (requirement_part dep_str) = Ok r →
       (channel_part dep_str ≠ "pip" → has_extras_or_url r →
          raises ValueError (_validate_conda_dependency_string dep_str))
       ∧ (channel_part dep_str ≠ "pip" → ¬ has_extras_or_url r →
            _validate_conda_dependency_string dep_str = Ok (channel_part dep_str, r))
       ∧ (channel_part dep_str = "pip" →
            _validate_conda_dependency_string dep_str = Ok ("pip", r))).
Proof.
  split; [|split].
  - intros Hno. unfold channel_part, requirement_part.
    by rewrite rpartition_not_found.
  - intros h t Hlast. unfold channel_part, requirement_part.
    by rewrite (rpartition_found _ _ h t).
  - unfold _validate_conda_dependency_string, channel_part, requirement_part.
    destruct (rpartition "::" dep_str) as [[h sep] t]. simpl.
    split.
    + intros e He. rewrite He. simpl. split; [done|].
      by eapply validate_pip_requirement_string_raise.
    + intros r Hr. rewrite Hr. simpl.
      pose proof (truthy_extras_or_url r) as Htruthy.
      set (ch := if decide (h = "") then "defaults" else h) in *. clearbody ch.
      destruct (decide (ch ≠ "pip")) as [Hne|Heq%dec_stable].
      * destruct (truthy_set (extras r)) eqn:He; [|destruct (truthy_str (url r)) eqn:Hu].
        -- split; [done|]. split; [|done]. intros _ Hno.
           apply Htruthy in Hno as [? _]. done.
        -- split; [done|]. split; [|done]. intros _ Hno.
           apply Htruthy in Hno as [_ ?]. done.
        -- split; [|done]. intros _ Hyes. by apply Htruthy in Hyes.
      * subst ch. done.
Qed.

(** ** [resolve_conda_environment] *)

(** C7: [resolve_conda_environment] returns [None] exactly when the solver
    raises [ResolvePackageNotFound], [UnsatisfiableError],
    [PackagesNotFoundError] or [LibMambaUnsatisfiableError]; any other
    exception of the solver goes through the call; when the solver returns
    records, the call returns the sorted list of the ["name==version"]
    strings of exactly the records whose name is a requested package name. *)
Theorem resolve_conda_environment_spec (conda_solver : LibMambaSolver)
    (packages : list Requirement) (channels : list string) :
  let outcome := conda_solver channels (requirement_str <$> packages) in
  let run := resolve_conda_environment conda_solver packages channels in
  (run = Returned None ↔
     outcome = SolveRaises ResolvePackageNotFound
     ∨ outcome = SolveRaises UnsatisfiableError
     ∨ outcome = SolveRaises PackagesNotFoundError
     ∨ outcome = SolveRaises LibMambaUnsatisfiableError)
  ∧ (∀ what, outcome = SolveRaises (OtherCondaException what) →
       run = Propagated (OtherCondaException what))
  ∧ (∀ solve_result, outcome = Solved solve_result →
       ∃ out, run = Returned (Some out)
              ∧ Sorted String.le out
              ∧ out ≡ₚ (λ rec, pkg_name rec +:+ "==" +:+ pkg_version rec) <$>
                         filter (λ rec, pkg_name rec ∈ name <$> packages) solve_result).
Proof.
  intros outcome run. subst outcome run. unfold resolve_conda_environment.
  destruct (conda_solver channels _) as [solve_result|e]; split_and!.
  - split; [done|]. by intros [?|[?|[?|?]]].
  - done.
  - intros ? [= <-]. eexists. split; [done|].
    split; [apply Sorted_merge_sort; apply _|apply merge_sort_Permutation].
  - destruct e; simpl; split; auto; try done.
    by intros [?|[?|[?|?]]].
  - by intros what [= ->].
  - done.
Qed.

End env_utils_facts.

(** ** The catalog lookup and the cache *)

Section catalog_facts.
Context `{Packaging}.
Implicit Types (req : Requirement) (reqs : list Requirement)
  (cache c : package_cache) (rows table : list package_row) (n : string).

Lemma cache_after_cons_Some row rows c v :
  row_version row = Some v →
  cache_after (row :: rows) c =
  cache_after rows (<[PACKAGE_NAME row := cached c (PACKAGE_NAME row) ++ [v]]> c).
Proof. intros Hv. unfold cache_after. simpl. by rewrite Hv. Qed.

Lemma cache_after_cons_None row rows c :
  row_version row = None → cache_after (row :: rows) c = cache_after rows c.
Proof. intros Hv. unfold cache_after. simpl. by rewrite Hv. Qed.

Lemma rows_read_all rows :
  Forall (λ row, is_Some (row_version row)) rows → rows_read rows = rows.
Proof.
  induction 1 as [|row rows [v Hv] _ IH]; [done|].
  simpl. by rewrite Hv, IH.
Qed.

Lemma rows_read_prefix rows : rows_read rows `prefix_of` rows.
Proof.
  induction rows as [|row rows [rest IH]]; [by exists []|]. simpl.
  destruct (row_version row); [|by eexists].
  exists rest. simpl. by rewrite <- IH.
Qed.

Lemma rows_read_parse rows :
  Forall (λ row, is_Some (row_version row)) (rows_read rows).
Proof.
  induction rows as [|row rows IH]; [constructor|]. simpl.
  destruct (row_version row) as [v|] eqn:Hv; [|constructor].
  constructor; [by eexists|done].
Qed.

Lemma rows_read_stops rows :
  Exists (λ row, row_version row = None) rows → rows_read rows ≠ rows.
Proof.
  induction 1 as [row rows Hv|row rows _ IH]; simpl.
  - by rewrite Hv.
  - destruct (row_version row); [|done]. intros [= Heq]. done.
Qed.

(** The loop over the rows of a query result: it gets through all rows when
    [version.parse] accepts every [VERSION], and otherwise raises
    [InvalidVersion] at the first it rejects, the versions of the rows
    before being cached. *)
Lemma for_each_cache_row rows c :
  (Forall (λ row, is_Some (row_version row)) rows
     ∧ for_each rows cache_row c = (Ok (), cache_after rows c))
  ∨ (Exists (λ row, row_version row = None) rows
     ∧ ∃ e, exc_class e = InvalidVersion
            ∧ for_each rows cache_row c = (Raise e, cache_after (rows_read rows) c)).
Proof.
  revert c. induction rows as [|row rows IH]; intros c.
  - left. split; [constructor|done].
  - rewrite for_each_cons. unfold cache_row at 1 3.
    destruct (row_version row) as [v|] eqn:Hv; unfold row_version in Hv; rewrite Hv.
    + unfold modify. fold (cached c (PACKAGE_NAME row)).
      destruct (IH (<[PACKAGE_NAME row := cached c (PACKAGE_NAME row) ++ [v]]> c))
        as [[Hall ->]|(Hex & e & He & ->)].
      * left. split; [constructor; [by eexists|done]|].
        by rewrite (cache_after_cons_Some _ _ _ v).
      * right. split; [by apply Exists_cons_tl|]. exists e. split; [done|].
        simpl. unfold row_version at 1. rewrite Hv.
        by rewrite (cache_after_cons_Some _ _ _ v).
    + right. split; [apply Exists_cons_hd; exact Hv|].
      eexists (Exception InvalidVersion _). split; [done|].
      unfold raise. simpl. unfold row_version at 1. by rewrite Hv.
Qed.

Lemma versions_of_cons_Some row rows v :
  row_version row = Some v → versions_of (row :: rows) = v :: versions_of rows.
Proof. intros Hv. unfold versions_of. simpl. by rewrite Hv. Qed.

Lemma versions_of_cons_None row rows :
  row_version row = None → versions_of (row :: rows) = versions_of rows.
Proof. intros Hv. unfold versions_of. simpl. by rewrite Hv. Qed.

Lemma lookup_cache_after rows c n :
  cache_after rows c !! n =
  if decide (versions_of (filter (λ row, PACKAGE_NAME row = n) rows) = [])
  then c !! n
  else Some (cached c n ++ versions_of (filter (λ row, PACKAGE_NAME row = n) rows)).
Proof.
  revert c. induction rows as [|row rows IH]; intros c; [done|].
  destruct (row_version row) as [v|] eqn:Hv.
  - rewrite (cache_after_cons_Some _ _ _ v), IH, filter_cons by done.
    destruct (decide (PACKAGE_NAME row = n)) as [<-|Hne].
    + rewrite (versions_of_cons_Some _ _ v) by done.
      rewrite (decide_False (P := _ :: _ = [])) by done.
      unfold cached at 2. rewrite !lookup_insert_eq. simpl.
      destruct (decide (versions_of _ = [])) as [->|_].
      * done.
      * by rewrite <- (assoc_L (++)).
    + unfold cached at 2. rewrite !lookup_insert_ne by done. done.
  - rewrite cache_after_cons_None, IH, filter_cons by done.
    destruct (decide (PACKAGE_NAME row = n)) as [<-|Hne]; [|done].
    by rewrite versions_of_cons_None.
Qed.

Lemma rows_of_selected names table n :
  filter (λ row, PACKAGE_NAME row = n) (select_packages names table) =
  if decide (n ∈ names)
  then filter (λ row, PACKAGE_NAME row = n ∧ LANGUAGE row = "python") table
  else [].
Proof.
  unfold select_packages. rewrite list_filter_filter.
  destruct (decide (n ∈ names)) as [Hn|Hn].
  - apply list_filter_iff. intros row. split; [by intros (-> & _ & ?)|by intros [-> ?]].
  - induction table as [|row table IH]; [done|].
    rewrite filter_cons, IH. rewrite decide_False; [done|].
    intros (<- & ? & _). done.
Qed.

Lemma select_packages_nil table : select_packages [] table = [].
Proof.
  unfold select_packages. induction table as [|row table IH]; [done|].
  rewrite filter_cons, IH. rewrite decide_False; [done|].
  intros [Hin _]. by apply elem_of_nil in Hin.
Qed.

(** The cache after a successful query for [names]: a cached package keeps
    its versions when it was not asked for, and a package that was asked for
    and was not cached gets the catalog's versions. *)
Lemma lookup_after_query session names c n :
  cache_after (select_packages names (information_schema_packages session)) c !! n =
  if decide (n ∈ names ∧ catalog_versions session n ≠ [])
  then Some (cached c n ++ catalog_versions session n)
  else c !! n.
Proof.
  rewrite lookup_cache_after, rows_of_selected. unfold catalog_versions, catalog_rows.
  destruct (decide (n ∈ names)) as [Hn|Hn].
  - destruct (decide (versions_of _ = [])) as [Hnil|Hne].
    + rewrite decide_False; [done|]. by intros [_ ?].
    + by rewrite decide_True.
  - rewrite decide_True by done. rewrite decide_False; [done|]. by intros [? _].
Qed.

(** The cache after a query for [names] whose rows were read as far as
    [version.parse] allows: a package gets an initial part of the catalog's
    versions, all of them when all rows were read. *)
Lemma lookup_after_rows_read session names c n :
  let rows := select_packages names (information_schema_packages session) in
  cache_after (rows_read rows) c !! n = c !! n
  ∨ (n ∈ names
     ∧ ∃ vs, vs ≠ [] ∧ vs `prefix_of` catalog_versions session n
             ∧ cache_after (rows_read rows) c !! n = Some (cached c n ++ vs)
             ∧ (rows_read rows = rows → vs = catalog_versions session n)).
Proof.
  cbv zeta. rewrite lookup_cache_after.
  destruct (decide (versions_of _ = [])) as [Hnil|Hne]; [by left|]. right.
  pose proof (rows_of_selected names (information_schema_packages session) n) as Hsel.
  destruct (rows_read_prefix (select_packages names (information_schema_packages session)))
    as [rest Hrest].
  rewrite Hrest in Hsel at 1. rewrite filter_app in Hsel.
  assert (n ∈ names) as Hn.
  { destruct (decide (n ∈ names)) as [|Hout]; [done|].
    apply app_eq_nil in Hsel as [Hempty _]. rewrite Hempty in Hne. done. }
  rewrite decide_True in Hsel by done.
  split; [done|]. eexists. split; [exact Hne|]. split; [|split; [done|]].
  - unfold catalog_versions, catalog_rows. rewrite <- Hsel.
    unfold versions_of. rewrite omap_app. by eexists.
  - intros ->. unfold catalog_versions, catalog_rows.
    by rewrite rows_of_selected, decide_True by done.
Qed.

Lemma elem_of_sorted (x : string) (l : list string) : x ∈ sorted l ↔ x ∈ l.
Proof. unfold sorted. by rewrite merge_sort_Permutation. Qed.

Lemma elem_of_requested_names cache reqs n :
  n ∈ sorted (name <$> reqs_to_request cache reqs) ↔
  cache !! n = None ∧ n ∈ name <$> reqs.
Proof.
  rewrite elem_of_sorted, !list_elem_of_fmap. unfold reqs_to_request. split.
  - intros (req & -> & [Hc Hin]%list_elem_of_filter). eauto.
  - intros (Hc & req & -> & Hin). exists req. split; [done|].
    by apply list_elem_of_filter.
Qed.

(** *** [max] *)

Lemma foldl_max_latest `{!VersionOrder} (items seen : list Version) (b : Version) :
  b ∈ seen → (∀ w, w ∈ seen → version_lt b w = false) →
  is_latest
    (foldl (λ maxitem item, if version_lt maxitem item then item else maxitem) b items)
    (seen ++ items).
Proof.
  revert seen b. induction items as [|x items IH]; intros seen b Hb Hmax.
  - simpl. rewrite app_nil_r. by split.
  - simpl. rewrite (cons_middle x seen items), (assoc_L (++)).
    destruct (version_lt b x) eqn:Hbx.
    + apply IH; [set_solver|]. intros w [Hw| ->%list_elem_of_singleton]%elem_of_app.
      * destruct (version_lt x w) eqn:Hxw; [|done].
        by rewrite <- (Hmax w Hw), (version_lt_trans b x w).
      * apply version_lt_irrefl.
    + apply IH; [set_solver|]. intros w [Hw| ->%list_elem_of_singleton]%elem_of_app; auto.
Qed.

Lemma py_max_latest `{!VersionOrder} (v : Version) (vs : list Version) :
  is_latest (py_max v vs) (v :: vs).
Proof.
  apply (foldl_max_latest vs [v] v); [by left|].
  intros w ->%list_elem_of_singleton. apply version_lt_irrefl.
Qed.

(** *** The last loop *)

Lemma pin_latest_reconciles `{!VersionOrder} (versions : string → list Version)
    cache reqs :
  (∀ req, req ∈ reqs → cached cache (name req) = versions (name req)) →
  ∀ ret_list,
    (pin_latest cache reqs ret_list = None ↔
       ∃ req, req ∈ reqs ∧ selected req (versions (name req)) = [])
    ∧ (∀ l, pin_latest cache reqs ret_list = Some l →
         ∃ vs, Forall2 (λ req v, is_latest v (selected req (versions (name req)))) reqs vs
               ∧ l = sorted (ret_list ++ zip_with pinned reqs vs)).
Proof.
  induction reqs as [|req reqs IH]; intros Hknown ret_list.
  - simpl. split.
    + split; [done|]. intros (req & Hin & _). by apply elem_of_nil in Hin.
    + intros l [= <-]. exists []. split; [constructor|]. by rewrite app_nil_r.
  - simpl. fold (cached cache (name req)). rewrite (Hknown req) by left.
    fold (selected req (versions (name req))).
    destruct (selected req (versions (name req))) as [|v vs] eqn:Hsel.
    + split; [|done]. split; [|done]. intros _. exists req. split; [by left|done].
    + destruct (IH (λ r Hr, Hknown r (list_elem_of_further _ _ _ Hr))
                  (ret_list ++ [name req +:+ "==" +:+ version_str (py_max v vs)]))
        as [IHnone IHsome].
      split.
      * rewrite IHnone. split.
        -- intros (r & Hr & Hempty). exists r. split; [by right|done].
        -- intros (r & [->|Hr]%elem_of_cons & Hempty); [congruence|eauto].
      * intros l (ws & Hws & ->)%IHsome. exists (py_max v vs :: ws). split.
        -- constructor; [|done]. rewrite Hsel. apply py_max_latest.
        -- simpl. by rewrite <- (assoc_L (++)).
Qed.

(** *** The call *)

Lemma validate_requirements_no_query session reqs cache :
  reqs_to_request cache reqs = [] →
  validate_requirements_in_snowflake_conda_channel session reqs cache =
  (Ok (pin_latest cache reqs []), cache).
Proof.
  intros Hnone. unfold validate_requirements_in_snowflake_conda_channel.
  rewrite bind_run. unfold get at 1. fold (reqs_to_request cache reqs).
  by rewrite Hnone.
Qed.

Lemma validate_requirements_query session reqs cache :
  reqs_to_request cache reqs ≠ [] →
  validate_requirements_in_snowflake_conda_channel session reqs cache =
  if query_raises_DataError session (sorted (name <$> reqs_to_request cache reqs))
  then (Ok None, cache)
  else
    match for_each (rows_selected session reqs cache) cache_row cache with
    | (Ok _, cache') => (Ok (pin_latest cache' reqs []), cache')
    | (Raise e, cache') => (Raise e, cache')
    end.
Proof.
  intros Hsome. unfold validate_requirements_in_snowflake_conda_channel, rows_selected.
  rewrite bind_run. unfold get at 1. fold (reqs_to_request cache reqs).
  destruct (reqs_to_request cache reqs) as [|req rest]; [done|].
  simpl. destruct (query_raises_DataError session _); [done|].
  rewrite bind_run. by destruct (for_each _ cache_row cache) as [[[]|e] cache'].
Qed.

(** The four ways a call goes: without a query; with a query that fails;
    with a query whose rows are all read; with a query one of whose rows has
    a [VERSION] that is not a version. *)
Lemma validate_requirements_run session reqs cache :
  let run := validate_requirements_in_snowflake_conda_channel session reqs cache in
  let rows := rows_selected session reqs cache in
  (reqs_to_request cache reqs = [] ∧ run = (Ok (pin_latest cache reqs []), cache))
  ∨ (query_fails session reqs cache ∧ run = (Ok None, cache))
  ∨ (reqs_to_request cache reqs ≠ [] ∧ ¬ query_fails session reqs cache
     ∧ Forall (λ row, is_Some (row_version row)) rows
     ∧ run = (Ok (pin_latest (cache_after rows cache) reqs []), cache_after rows cache))
  ∨ (reqs_to_request cache reqs ≠ [] ∧ ¬ query_fails session reqs cache
     ∧ Exists (λ row, row_version row = None) rows
     ∧ ∃ e, exc_class e = InvalidVersion
            ∧ run = (Raise e, cache_after (rows_read rows) cache)).
Proof.
  cbv zeta. destruct (decide (length (reqs_to_request cache reqs) = 0)) as [Hlen|Hlen].
  { apply nil_length_inv in Hlen. left. split; [done|].
    by apply validate_requirements_no_query. }
  assert (reqs_to_request cache reqs ≠ []) as Hsome.
  { intros Hnil. by rewrite Hnil in Hlen. }
  right. rewrite validate_requirements_query by done. unfold query_fails.
  destruct (query_raises_DataError session _) eqn:Hq; [by left|]. right.
  assert (¬ (reqs_to_request cache reqs ≠ [] ∧ false = true)) as Hok by (by intros [_ ?]).
  destruct (for_each_cache_row (rows_selected session reqs cache) cache)
    as [[Hall ->]|(Hex & e & He & ->)].
  - left. done.
  - right. split_and!; [done..|]. by exists e.
Qed.

(** What a call, returning or raising, leaves in the cache for package [n]:
    what was there, or, for a package that was not cached and is asked for,
    an initial part of the versions the catalog lists, and all of them when
    the call returns. *)
Lemma cache_after_call session reqs cache n :
  let run := validate_requirements_in_snowflake_conda_channel session reqs cache in
  run.2 !! n = cache !! n
  ∨ (cache !! n = None ∧ n ∈ name <$> reqs_to_request cache reqs
     ∧ ∃ vs, vs ≠ [] ∧ vs `prefix_of` catalog_versions session n
             ∧ run.2 !! n = Some vs
             ∧ (returns run.1 → vs = catalog_versions session n)).
Proof.
  cbv zeta.
  assert (
    cache_after (rows_read (rows_selected session reqs cache)) cache !! n = cache !! n
    ∨ (cache !! n = None ∧ n ∈ name <$> reqs_to_request cache reqs
       ∧ ∃ vs, vs ≠ [] ∧ vs `prefix_of` catalog_versions session n
               ∧ cache_after (rows_read (rows_selected session reqs cache)) cache !! n
                 = Some vs
               ∧ (rows_read (rows_selected session reqs cache)
                  = rows_selected session reqs cache →
                  vs = catalog_versions session n))) as Hlookup.
  { unfold rows_selected.
    destruct (lookup_after_rows_read session
                (sorted (name <$> reqs_to_request cache reqs)) cache n)
      as [?|(Hn & vs & Hne & Hpre & Hlook & Hall)]; [by left|]. right.
    pose proof Hn as [Hc _]%elem_of_requested_names.
    rewrite elem_of_sorted in Hn. split; [done|]. split; [done|].
    exists vs. unfold cached in Hlook. rewrite Hc in Hlook. done. }
  destruct (validate_requirements_run session reqs cache)
    as [[_ ->]|[[_ ->]|[(_ & _ & Hall & ->)|(_ & _ & Hex & e & _ & ->)]]];
    [by left|by left| |]; cbn [fst snd].
  - rewrite (rows_read_all _ Hall) in Hlookup.
    destruct Hlookup as [?|(Hc & Hn & vs & ? & ? & ? & Heq)]; [by left|].
    right. split_and!; [done..|]. exists vs. split_and!; [done..|].
    intros _. by apply Heq.
  - destruct Hlookup as [?|(Hc & Hn & vs & ? & ? & ? & Heq)]; [by left|].
    right. split_and!; [done..|]. exists vs. done.
Qed.

Lemma versions_after_call session reqs cache req :
  reads_versions session reqs cache →
  ¬ query_fails session reqs cache → req ∈ reqs →
  cached (validate_requirements_in_snowflake_conda_channel session reqs cache).2 (name req)
  = known_versions cache session (name req).
Proof.
  intros [?|Hread] Hok Hin; [done|]. unfold cached, known_versions.
  destruct (cache !! name req) as [vs|] eqn:Hc.
  - destruct (cache_after_call session reqs cache (name req))
      as [->|(Hc' & _)]; [by rewrite Hc|congruence].
  - (* not cached before the call: the call asks the catalog about it *)
    assert (req ∈ reqs_to_request cache reqs) as Hreq by (by apply list_elem_of_filter).
    destruct (validate_requirements_run session reqs cache)
      as [[Hnil _]|[[? _]|[(_ & _ & _ & ->)|(_ & _ & Hex & _)]]].
    + rewrite Hnil in Hreq. by apply elem_of_nil in Hreq.
    + done.
    + cbn [snd]. unfold rows_selected. rewrite lookup_after_query.
      destruct (decide _) as [[_ Hne]|Hno].
      * unfold cached. by rewrite Hc.
      * rewrite Hc. simpl.
        destruct (decide (catalog_versions session (name req) = [])) as [->|Hne]; [done|].
        destruct Hno. split; [|done]. apply elem_of_requested_names.
        split; [done|]. by apply list_elem_of_fmap_2.
    + apply Exists_exists in Hex as (row & Hrow & Hnone).
      rewrite Forall_forall in Hread. destruct (Hread row Hrow) as [v Hv]. congruence.
Qed.

(** A call that reads a [VERSION] that is not a version raises
    [InvalidVersion]. *)
Lemma call_raises_invalid_version session reqs cache :
  ¬ reads_versions session reqs cache →
  raises InvalidVersion
    (validate_requirements_in_snowflake_conda_channel session reqs cache).1.
Proof.
  intros Hno.
  destruct (validate_requirements_run session reqs cache)
    as [[Hnil _]|[[? _]|[(_ & _ & Hall & _)|(_ & _ & _ & e & He & ->)]]].
  - destruct Hno. right. unfold rows_selected. rewrite Hnil.
    change (sorted (name <$> [])) with (@nil string). rewrite select_packages_nil.
    constructor.
  - destruct Hno. by left.
  - destruct Hno. by right.
  - done.
Qed.

Lemma call_reconciles `{!VersionOrder} (versions : string → list Version)
    session reqs cache :
  reads_versions session reqs cache →
  (∀ req, req ∈ reqs → known_versions cache session (name req) = versions (name req)) →
  ∃ out,
    (validate_requirements_in_snowflake_conda_channel session reqs cache).1 = Ok out
    ∧ reconciles versions (query_fails session reqs cache) reqs out.
Proof.
  intros Hread Hknown.
  assert (∀ out cache',
    ¬ query_fails session reqs cache →
    (∀ req, req ∈ reqs → cached cache' (name req) = versions (name req)) →
    out = pin_latest cache' reqs [] →
    reconciles versions (query_fails session reqs cache) reqs out) as Hlast.
  { intros out cache' Hok Hc ->.
    destruct (pin_latest_reconciles versions cache' reqs Hc []) as [Hnone Hsome].
    split.
    - rewrite Hnone. split; [by right|]. by intros [?|?].
    - intros l (vs & Hvs & ->)%Hsome. rewrite app_nil_l. split; [|exists vs; split].
      + apply Sorted_merge_sort; apply _.
      + done.
      + apply merge_sort_Permutation. }
  pose proof (versions_after_call session reqs cache) as Hafter.
  destruct (validate_requirements_run session reqs cache)
    as [[Hnil Hrun]|[[Hfail Hrun]|[(_ & Hok & _ & Hrun)|(_ & _ & Hex & _)]]].
  - assert (¬ query_fails session reqs cache) as Hok by (by intros [? _]).
    rewrite Hrun in *. cbn [fst snd] in *.
    eexists. split; [done|]. apply (Hlast _ cache); [done| |done].
    intros req Hin. by rewrite Hafter, Hknown.
  - rewrite Hrun. exists None. split; [done|]. split; [|done].
    split; [|done]. intros _. by left.
  - rewrite Hrun in *. cbn [fst snd] in *.
    eexists. split; [done|]. eapply Hlast; [done| |done].
    intros req Hin. by rewrite Hafter, Hknown.
  - destruct Hread as [Hfail|Hread].
    + destruct Hfail as [Hsome Hq].
      destruct (validate_requirements_run session reqs cache)
        as [[? _]|[[_ ->]|[(_ & Hok & _)|(_ & Hok & _)]]]; try done.
      * exists None. split; [done|]. split; [|done]. split; [|done]. intros _. by left.
      * destruct Hok. by split.
      * destruct Hok. by split.
    + apply Exists_exists in Hex as (row & Hrow & Hnone).
      rewrite Forall_forall in Hread. destruct (Hread row Hrow) as [v Hv]. congruence.
Qed.

(** C5 (amended): when [version.parse] accepts the [VERSION] of every row a
    call of [validate_requirements_in_snowflake_conda_channel] reads, the
    call returns [None] exactly when it issues a query that fails or some
    requirement has no version selected by its specifier, and otherwise the
    sorted list of ["name==v"], one per requirement, [v] being the latest
    selected version, all this among the versions the call knows for the
    package: those cached before the call when there are any, the catalog's
    otherwise. When none of the requested packages is cached before the call
    these are the catalog's versions. When the call reads a [VERSION] that
    [version.parse] rejects, it raises [InvalidVersion]. *)
Theorem validate_requirements_reconciles `{!VersionOrder} session reqs cache :
  (reads_versions session reqs cache →
     reconciles_with_known session reqs cache
     ∧ ((∀ req, req ∈ reqs → cache !! name req = None) →
          reconciles_with_catalog session reqs cache))
  ∧ (¬ reads_versions session reqs cache →
       raises InvalidVersion
         (validate_requirements_in_snowflake_conda_channel session reqs cache).1).
Proof.
  split; [|apply call_raises_invalid_version].
  intros Hread. split.
  - by apply call_reconciles.
  - intros Hfresh. apply call_reconciles; [done|]. intros req Hin.
    unfold known_versions. by rewrite Hfresh.
Qed.

End catalog_facts.

(** ** The module state *)

Section module_facts.
Context `{Packaging} `{Warnings}.
Implicit Types (req : Requirement) (reqs : list Requirement)
  (cache : package_cache) (st : module_state) (n : string).

Lemma on_cache_state {A} (m : M package_cache A) st :
  _SNOWFLAKE_CONDA_PACKAGE_CACHE ((on_cache m;; mret ()) st).2
    = (m (_SNOWFLAKE_CONDA_PACKAGE_CACHE st)).2
  ∧ __warningregistry__ ((on_cache m;; mret ()) st).2 = __warningregistry__ st.
Proof.
  rewrite bind_run. unfold on_cache.
  by destruct (m (_SNOWFLAKE_CONDA_PACKAGE_CACHE st)) as [[a|e] cache].
Qed.

Lemma lift_state {A} (r : result A) st : ((lift r;; mret ()) st).2 = st.
Proof. rewrite bind_run. unfold lift. by destruct r. Qed.

(** The call of [get_local_installed_version_of_pip_package]: it leaves the
    module state as it is unless the package is installed in a version
    outside the specifier; then it leaves the cache, and the module has a
    [__warningregistry__] afterwards. *)
Lemma get_local_call_state distribution_version (pip_req : Requirement) st :
  let st' :=
    ((get_local_installed_version_of_pip_package_call distribution_version pip_req;;
      mret ()) st).2 in
  match distribution_version (name pip_req) with
  | Some v =>
      if specifier_contains (specifier pip_req) v then st' = st
      else _SNOWFLAKE_CONDA_PACKAGE_CACHE st' = _SNOWFLAKE_CONDA_PACKAGE_CACHE st
           ∧ is_Some (__warningregistry__ st')
  | None => st' = st
  end.
Proof.
  cbv zeta. rewrite bind_run. unfold get_local_installed_version_of_pip_package_call.
  destruct (distribution_version (name pip_req)) as [v|]; [|done].
  destruct (specifier_contains (specifier pip_req) v); [done|].
  rewrite bind_run. unfold warn.
  destruct (warning_is_error _ (__warningregistry__ st)); by eauto.
Qed.


(** C6 (amended): the module state is the cache and the registry of the
    [warnings] module. A catalog lookup, returning or raising, leaves the
    registry, keeps every cached package with its versions, and changes the
    cache only by adding, for package names it asked the catalog about,
    versions the catalog lists for that name: an initial part of them, and
    all of them when the call returns.
    [get_local_installed_version_of_pip_package] changes the module state
    only when the package is installed in a version outside the specifier:
    then its [warnings.warn] leaves a [__warningregistry__] in the module
    and the cache is as before. No other operation changes the module
    state. *)
Theorem module_state_changes :
  (∀ session reqs cache n,
     let run := validate_requirements_in_snowflake_conda_channel session reqs cache in
     (∀ versions, cache !! n = Some versions → run.2 !! n = Some versions)
     ∧ (run.2 !! n ≠ cache !! n →
          cache !! n = None
          ∧ n ∈ name <$> reqs_to_request cache reqs
          ∧ ∃ vs, run.2 !! n = Some vs
                  ∧ vs `prefix_of` catalog_versions session n
                  ∧ (returns run.1 → vs = catalog_versions session n)))
  ∧ (∀ op st,
       state_after op st ≠ st →
       (∃ session reqs,
          op = call_validate_requirements_in_snowflake_conda_channel session reqs
          ∧ _SNOWFLAKE_CONDA_PACKAGE_CACHE (state_after op st)
            = (validate_requirements_in_snowflake_conda_channel session reqs
                 (_SNOWFLAKE_CONDA_PACKAGE_CACHE st)).2
          ∧ __warningregistry__ (state_after op st) = __warningregistry__ st)
       ∨ (∃ distribution_version pip_req v,
            op = call_get_local_installed_version_of_pip_package
                   distribution_version pip_req
            ∧ distribution_version (name pip_req) = Some v
            ∧ specifier_contains (specifier pip_req) v = false
            ∧ _SNOWFLAKE_CONDA_PACKAGE_CACHE (state_after op st)
              = _SNOWFLAKE_CONDA_PACKAGE_CACHE st))
  ∧ (∀ distribution_version pip_req v st,
       distribution_version (name pip_req) = Some v →
       specifier_contains (specifier pip_req) v = false →
       is_Some (__warningregistry__
         (state_after
            (call_get_local_installed_version_of_pip_package distribution_version pip_req)
            st))).
Proof.
  split_and!.
  - intros session reqs cache n run. subst run.
    destruct (cache_after_call session reqs cache n)
      as [->|(Hc & Hn & vs & _ & Hpre & -> & Hall)].
    + split; [done|]. by intros [].
    + split; [by rewrite Hc|]. intros _. split; [done|]. split; [done|].
      by exists vs.
  - intros op st Hch. unfold state_after in *.
    destruct op as [req_str_list|dep_str_list|req_list p_req|conda_chan_deps p_chan_dep
                   |distribution_version pip_req|req|conda_solver packages channels
                   |session reqs]; cbn [call] in *.
    + by rewrite lift_state in Hch.
    + by rewrite lift_state in Hch.
    + by destruct Hch.
    + by destruct Hch.
    + right.
      pose proof (get_local_call_state distribution_version pip_req st) as Hst.
      cbv zeta in Hst.
      destruct (distribution_version (name pip_req)) as [v|] eqn:Hv; [|done].
      destruct (specifier_contains (specifier pip_req) v) eqn:Hin; [done|].
      exists distribution_version, pip_req, v. by destruct Hst.
    + by destruct Hch.
    + by destruct Hch.
    + left. exists session, reqs. split; [done|]. apply on_cache_state.
  - intros distribution_version pip_req v st Hv Hin. unfold state_after. cbn [call].
    pose proof (get_local_call_state distribution_version pip_req st) as Hst.
    cbv zeta in Hst. rewrite Hv, Hin in Hst. by destruct Hst.
Qed.

End module_facts.


(** ** More on strings *)

Lemma string_app_assoc (a b c : string) : (a +:+ b) +:+ c = a +:+ b +:+ c.
Proof. induction a as [|x a IH]; [done|]. by rewrite !app_cons, IH. Qed.

Lemma string_app_length (a b : string) :
  String.length (a +:+ b) = (String.length a + String.length b)%nat.
Proof. induction a as [|x a IH]; [done|]. rewrite app_cons. simpl. by rewrite IH. Qed.

Lemma tail_has_no_separator sep s h t :
  sep ≠ "" → last_occurrence sep s h t → ¬ occurs sep t.
Proof.
  intros Hsep [Hs Hlast] (a & b & Ht).
  specialize (Hlast (h +:+ sep +:+ a) b).
  rewrite !string_app_length in Hlast.
  destruct sep as [|c sep]; [done|]. simpl in Hlast.
  assert (s = (h +:+ String c sep +:+ a) +:+ String c sep +:+ b) as Heq.
  { by rewrite Hs, Ht, !string_app_assoc. }
  specialize (Hlast Heq). lia.
Qed.

(** ** More on the validators *)

Section validator_facts.
Context `{Packaging}.
Implicit Types (r req p_req : Requirement) (rs req_list : list Requirement)
  (d : conda_deps) (strs : list string) (vs : list (string * Requirement)).

Lemma validate_pip_requirement_string_list_Ok strs rs :
  validate_pip_requirement_string_list strs = Ok rs ↔
  for_each strs pip_body [] = (Ok (), rs).
Proof.
  rewrite validate_pip_requirement_string_list_unfold. unfold run_on.
  destruct (for_each strs pip_body []) as [[[]|e] acc]; split; congruence.
Qed.

Lemma validate_pip_requirement_string_list_Raise strs e :
  validate_pip_requirement_string_list strs = Raise e ↔
  ∃ acc, for_each strs pip_body [] = (Raise e, acc).
Proof.
  rewrite validate_pip_requirement_string_list_unfold. unfold run_on.
  destruct (for_each strs pip_body []) as [[[]|e'] acc]; split.
  - done.
  - by intros [? ?].
  - intros [= ->]. eauto.
  - intros [? [= -> _]]. done.
Qed.

Lemma pip_loop_complete strs : ∀ rs acc,
  Forall2 (λ s r, _validate_pip_requirement_string s = Ok r) strs rs →
  NoDup (name <$> acc ++ rs) →
  for_each strs pip_body acc = (Ok (), acc ++ rs).
Proof.
  induction strs as [|s strs IH]; intros rs acc Hall Hnd.
  - apply Forall2_nil_inv_l in Hall as ->. by rewrite app_nil_r.
  - apply Forall2_cons_inv_l in Hall as (r & rs' & Hs & Hall & ->).
    rewrite for_each_cons, pip_body_run, Hs.
    rewrite append_requirement_list_fresh.
    + rewrite (cons_middle r acc rs'), (assoc_L (++)). apply IH; [done|].
      by rewrite <- (assoc_L (++)).
    + rewrite fmap_app in Hnd. apply NoDup_app in Hnd as (_ & Hdisj & _).
      intros Hin. apply (Hdisj _ Hin). rewrite fmap_cons. by left.
Qed.

(** X1: [validate_pip_requirement_string_list] returns a list exactly when
    every string is accepted and the canonical names are pairwise distinct;
    the list is then the validated requirements, one per string, in the
    order of the strings. *)
Theorem validate_pip_requirement_string_list_succeeds strs rs :
  validate_pip_requirement_string_list strs = Ok rs ↔
  Forall2 (λ s r, _validate_pip_requirement_string s = Ok r) strs rs
  ∧ NoDup (name <$> rs).
Proof.
  split; [apply validate_pip_requirement_string_list_ok|].
  intros [Hall Hnd]. apply validate_pip_requirement_string_list_Ok.
  by apply (pip_loop_complete strs rs []).
Qed.

Lemma pip_loop_raise_at strs : ∀ acc acc' e,
  for_each strs pip_body acc = (Raise e, acc') →
  ∃ pre s post mid,
    strs = pre ++ s :: post
    ∧ for_each pre pip_body acc = (Ok (), mid)
    ∧ (pip_body s mid).1 = Raise e.
Proof.
  induction strs as [|s strs IH]; intros acc acc' e Hrun; [done|].
  rewrite for_each_cons in Hrun.
  destruct (pip_body s acc) as [[[]|e'] acc1] eqn:Hs.
  - apply IH in Hrun as (pre & s' & post & mid & -> & Hpre & Hraise).
    exists (s :: pre), s', post, mid. split; [done|]. split; [|done].
    by rewrite for_each_cons, Hs.
  - inversion Hrun; subst. exists [], s, strs, acc. by rewrite Hs.
Qed.

Lemma pip_loop_raise_from pre s post mid e acc :
  for_each pre pip_body acc = (Ok (), mid) →
  (pip_body s mid).1 = Raise e →
  ∃ acc', for_each (pre ++ s :: post) pip_body acc = (Raise e, acc').
Proof.
  intros Hpre Hs. rewrite for_each_app, Hpre, for_each_cons.
  destruct (pip_body s mid) as [[[]|e'] acc1]; simpl in Hs; [done|].
  injection Hs as ->. eauto.
Qed.

Lemma pip_body_raise s mid e :
  (pip_body s mid).1 = Raise e ↔
  _validate_pip_requirement_string s = Raise e
  ∨ ∃ r, _validate_pip_requirement_string s = Ok r
         ∧ (append_requirement_list r mid).1 = Raise e.
Proof.
  rewrite pip_body_run.
  destruct (_validate_pip_requirement_string s) as [r|e']; simpl.
  - split; [eauto|]. by intros [?|(r' & [= <-] & ?)].
  - split; [intros [= ->]; by left|]. by intros [[= ->]|(r' & ? & _)].
Qed.

Lemma append_requirement_list_raise r mid e :
  (append_requirement_list r mid).1 = Raise e →
  exc_class e = DuplicateDependencyError ∧ name r ∈ name <$> mid.
Proof.
  intros Hraise.
  destruct (append_requirement_list_cases r mid) as [[Hok _]|(Hdup & _ & Hin)].
  - by rewrite Hok in Hraise.
  - by rewrite Hraise in Hdup.
Qed.

(** X2: [validate_pip_requirement_string_list] stops at the first string it
    cannot add. It raises [ValueError] exactly when some string is rejected
    and the strings before it validate as a list; it raises
    [DuplicateDependencyError] exactly when some string is accepted, the
    strings before it validate as a list, and that list already holds its
    canonical name. *)
Theorem validate_pip_requirement_string_list_first_failure strs :
  (raises ValueError (validate_pip_requirement_string_list strs) ↔
     ∃ pre s post,
       strs = pre ++ s :: post
       ∧ returns (validate_pip_requirement_string_list pre)
       ∧ raises ValueError (_validate_pip_requirement_string s))
  ∧ (raises DuplicateDependencyError (validate_pip_requirement_string_list strs) ↔
       ∃ pre s post rs r,
         strs = pre ++ s :: post
         ∧ validate_pip_requirement_string_list pre = Ok rs
         ∧ _validate_pip_requirement_string s = Ok r
         ∧ name r ∈ name <$> rs).
Proof.
  split; split.
  - destruct (validate_pip_requirement_string_list strs) as [rs|e] eqn:Hv; [done|].
    simpl. intros Hclass.
    apply validate_pip_requirement_string_list_Raise in Hv as [acc Hrun].
    apply pip_loop_raise_at in Hrun as (pre & s & post & mid & -> & Hpre & Hs).
    exists pre, s, post. split; [done|].
    apply validate_pip_requirement_string_list_Ok in Hpre. rewrite Hpre.
    split; [done|].
    apply pip_body_raise in Hs as [->|(r & _ & [Hdup _]%append_requirement_list_raise)];
      [done|congruence].
  - intros (pre & s & post & -> & [rs Hpre]%returns_ok & Hs).
    apply validate_pip_requirement_string_list_Ok in Hpre.
    destruct (_validate_pip_requirement_string s) as [r|e] eqn:Hvs; [done|].
    destruct (pip_loop_raise_from pre s post rs e [] Hpre) as [acc Hrun].
    { apply pip_body_raise. by left. }
    assert (validate_pip_requirement_string_list (pre ++ s :: post) = Raise e) as ->.
    { apply validate_pip_requirement_string_list_Raise. eauto. }
    done.
  - destruct (validate_pip_requirement_string_list strs) as [rs|e] eqn:Hv; [done|].
    simpl. intros Hclass.
    apply validate_pip_requirement_string_list_Raise in Hv as [acc Hrun].
    apply pip_loop_raise_at in Hrun as (pre & s & post & mid & -> & Hpre & Hs).
    apply validate_pip_requirement_string_list_Ok in Hpre.
    apply pip_body_raise in Hs as [Hs|(r & Hs & [_ Hin]%append_requirement_list_raise)].
    + apply validate_pip_requirement_string_raise in Hs. congruence.
    + exists pre, s, post, mid, r. done.
  - intros (pre & s & post & rs & r & -> & Hpre & Hs & Hin).
    apply validate_pip_requirement_string_list_Ok in Hpre.
    destruct (append_requirement_list_dup r rs Hin) as [Hdup _].
    destruct (append_requirement_list r rs) as [[[]|e] acc1] eqn:Happ; [done|].
    destruct (pip_loop_raise_from pre s post rs e [] Hpre) as [acc Hrun].
    { apply pip_body_raise. right. exists r. by rewrite Happ. }
    assert (validate_pip_requirement_string_list (pre ++ s :: post) = Raise e) as ->.
    { apply validate_pip_requirement_string_list_Raise. eauto. }
    done.
Qed.

(** X11: [append_requirement_list] returns normally exactly when no
    requirement of the list has the name of the appended one, and the list is
    then the old list followed by the appended requirement. *)
Theorem append_requirement_list_appends req_list p_req :
  ((append_requirement_list p_req req_list).1 = Ok () ↔
     name p_req ∉ name <$> req_list)
  ∧ ((append_requirement_list p_req req_list).1 = Ok () →
       (append_requirement_list p_req req_list).2 = req_list ++ [p_req]).
Proof.
  destruct (append_requirement_list_cases p_req req_list)
    as [[Hok Hfresh]|(Hdup & _ & Hin)].
  - rewrite Hok. done.
  - destruct (append_requirement_list p_req req_list) as [[[]|e] l']; [done|].
    split; [|done]. split; [done|]. by intros [].
Qed.

(** *** The conda validator *)

Lemma validate_conda_dependency_string_raise dep_str e :
  _validate_conda_dependency_string dep_str = Raise e → exc_class e = ValueError.
Proof.
  unfold _validate_conda_dependency_string.
  destruct (rpartition "::" dep_str) as [[h sep] t].
  destruct (_validate_pip_requirement_string t) as [r|e'] eqn:Ht; simpl.
  - repeat case_match; by intros [= <-].
  - intros [= <-]. by eapply validate_pip_requirement_string_raise.
Qed.

Lemma validate_conda_dependency_string_shape dep_str ch r :
  _validate_conda_dependency_string dep_str = Ok (ch, r) →
  marker r = None ∧ canonical_name r ∧ (ch ≠ "pip" → ¬ has_extras_or_url r).
Proof.
  intros Hdep.
  destruct (validate_conda_dependency_string_parts _ _ _ Hdep) as [_ Hpip].
  split; [|split; [by eapply validated_canonical_name|]].
  - by apply validate_pip_requirement_string_ok in Hpip as (r0 & _ & Hm & ->).
  - revert Hdep. unfold _validate_conda_dependency_string.
    destruct (rpartition "::" dep_str) as [[h sep] t].
    destruct (_validate_pip_requirement_string t) as [r'|e'] eqn:Ht; simpl; [|done].
    destruct (decide (_ ≠ "pip")) as [Hne|Heq].
    + destruct (truthy_set (extras r')) eqn:He; [done|].
      destruct (truthy_str (url r')) eqn:Hu; [done|].
      intros [= <- <-] _. by apply truthy_extras_or_url.
    + by intros [= <- <-] ?.
Qed.

(** X5: when [_validate_conda_dependency_string] returns, the channel is not
    empty, the part validated as a requirement holds no ["::"], and the
    string is that part alone (channel ["defaults"]), or ["::"] followed by
    that part (channel ["defaults"]), or the channel, ["::"] and that part. *)
Theorem validate_conda_dependency_string_split dep_str ch r :
  _validate_conda_dependency_string dep_str = Ok (ch, r) →
  ch ≠ ""
  ∧ ¬ occurs "::" (requirement_part dep_str)
  ∧ _validate_pip_requirement_string (requirement_part dep_str) = Ok r
  ∧ ((ch = "defaults" ∧ dep_str = requirement_part dep_str)
     ∨ (ch = "defaults" ∧ dep_str = "::" +:+ requirement_part dep_str)
     ∨ dep_str = ch +:+ "::" +:+ requirement_part dep_str).
Proof.
  intros [-> Hpip]%validate_conda_dependency_string_parts.
  revert Hpip. unfold channel_part, requirement_part, rpartition.
  destruct (rsplit_last "::" dep_str) as [[h t]|] eqn:Hsplit; simpl; intros Hpip.
  - apply rsplit_last_Some in Hsplit; [|done].
    pose proof (tail_has_no_separator "::" dep_str h t) as Htail.
    destruct Hsplit as [Hs Hlast].
    destruct (decide (h = "")) as [->|Hh].
    + split; [done|]. split; [by apply Htail|]. split; [done|]. right. by left.
    + split; [done|]. split; [by apply Htail|]. split; [done|]. by right; right.
  - apply rsplit_last_None in Hsplit; [|done]. split; [done|]. split; [done|].
    split; [done|]. by left.
Qed.

(** X4: [validate_conda_dependency_string_list] validates every string
    before it looks for duplicates: it raises [ValueError] exactly when some
    string of the list is rejected, whatever duplicates the list holds. *)
Theorem validate_conda_dependency_string_list_value_error strs :
  raises ValueError (validate_conda_dependency_string_list strs) ↔
  ∃ s, s ∈ strs ∧ raises ValueError (_validate_conda_dependency_string s).
Proof.
  split.
  - destruct (validate_conda_dependency_string_list strs) as [d|e] eqn:Hv; [done|].
    simpl. intros Hclass.
    apply validate_conda_dependency_string_list_raise in Hv
      as [?|[?|(s & Hin & Hs)]]; [congruence..|].
    exists s. split; [done|]. by rewrite Hs.
  - intros (s & Hin & Hs). rewrite validate_conda_dependency_string_list_unfold.
    destruct (list_map _validate_conda_dependency_string strs) as [vs|e] eqn:Hmap.
    + apply list_map_ok in Hmap. apply list_elem_of_lookup in Hin as [i Hi].
      destruct (Forall2_lookup_l _ _ _ _ _ Hmap Hi) as (v & _ & Hv).
      by rewrite Hv in Hs.
    + apply list_map_raise in Hmap as (x & _ & Hx).
      by eapply validate_conda_dependency_string_raise.
Qed.

Lemma channel_requirements_appended pc pr d ch :
  dict_wf d →
  channel_requirements (append_under pc pr (defaultdict_missing pc d)) ch =
  if decide (pc = ch) then channel_requirements d ch ++ [pr]
  else channel_requirements d ch.
Proof.
  intros Hwf. unfold channel_requirements. rewrite appended_map by done.
  destruct (decide (pc = ch)) as [->|Hne].
  - by rewrite lookup_insert_eq.
  - by rewrite lookup_insert_ne.
Qed.

Lemma appended_nonempty pc pr d :
  Forall (λ item, item.2 ≠ []) d →
  Forall (λ item, item.2 ≠ []) (append_under pc pr (defaultdict_missing pc d)).
Proof.
  intros Hd. unfold append_under. apply Forall_fmap, Forall_forall.
  intros [k l] Hin. simpl. destruct (decide (k = pc)); simpl.
  - by destruct l.
  - unfold defaultdict_missing in Hin. destruct (decide (pc ∈ d.*1)).
    + by apply (proj1 (Forall_forall _ _) Hd (k, l)).
    + apply elem_of_app in Hin as [Hin|Hin%list_elem_of_singleton].
      * by apply (proj1 (Forall_forall _ _) Hd (k, l)).
      * congruence.
Qed.

Lemma conda_loop_groups vs : ∀ d d',
  dict_wf d →
  for_each vs conda_body d = (Ok (), d') →
  (∀ ch, channel_requirements d' ch =
           channel_requirements d ch ++ (filter (λ v, v.1 = ch) vs).*2)
  ∧ d'.*1 = channels_from d.*1 vs
  ∧ (Forall (λ item, item.2 ≠ []) d → Forall (λ item, item.2 ≠ []) d').
Proof.
  induction vs as [|[pc pr] vs IH]; intros d d' Hwf Hrun.
  - inversion Hrun; subst. split; [|done]. intros ch. by rewrite app_nil_r.
  - rewrite for_each_cons in Hrun.
    change (conda_body (pc, pr) d) with (append_conda_dependency (pc, pr) d) in Hrun.
    destruct (append_conda_dependency_cases (pc, pr) d) as [[Heq _]|(Hr & _ & _)].
    + rewrite Heq in Hrun. simpl in Hrun.
      apply IH in Hrun as (Hlook & Hkeys & Hne); [|by apply appended_wf].
      split; [|split].
      * intros ch. rewrite Hlook, channel_requirements_appended by done.
        rewrite filter_cons. simpl. destruct (decide (pc = ch)); [|done].
        by rewrite fmap_cons, <- (assoc_L (++)).
      * rewrite Hkeys, appended_keys. done.
      * intros Hd. by apply Hne, appended_nonempty.
    + destruct (append_conda_dependency (pc, pr) d) as [[[]|e] d''];
        [by destruct Hr|done].
Qed.

Lemma validated_dict_groups strs d :
  validate_conda_dependency_string_list strs = Ok d →
  ∃ vs,
    Forall2 (λ s v, _validate_conda_dependency_string s = Ok v) strs vs
    ∧ dict_wf d
    ∧ (∀ ch, channel_requirements d ch = (filter (λ v, v.1 = ch) vs).*2)
    ∧ d.*1 = channels_in_order vs
    ∧ Forall (λ item, item.2 ≠ []) d.
Proof.
  intros Hv.
  destruct (validate_conda_dependency_string_list_ok _ _ Hv) as (_ & _ & Hwf & _).
  revert Hv. rewrite validate_conda_dependency_string_list_unfold.
  destruct (list_map _ strs) as [vs|e] eqn:Hmap; [|done].
  apply list_map_ok in Hmap. unfold run_on.
  destruct (for_each vs conda_body []) as [[[]|e] d'] eqn:Hrun; [|done].
  intros [= <-]. apply conda_loop_groups in Hrun as (Hlook & Hkeys & Hne); [|constructor].
  exists vs. split; [done|]. split; [done|]. split; [done|]. split; [done|].
  apply Hne. constructor.
Qed.

(** X3: the dict that [validate_conda_dependency_string_list] returns groups
    the validated requirements by channel: under each channel, the
    requirements of the strings of that channel in the order of the strings;
    the channels in the order of their first use; no channel with an empty
    list. *)
Theorem validate_conda_dependency_string_list_groups strs d :
  validate_conda_dependency_string_list strs = Ok d →
  ∃ vs,
    Forall2 (λ s v, _validate_conda_dependency_string s = Ok v) strs vs
    ∧ (∀ ch, channel_requirements d ch = (filter (λ v, v.1 = ch) vs).*2)
    ∧ d.*1 = channels_in_order vs
    ∧ Forall (λ item, item.2 ≠ []) d.
Proof.
  intros (vs & ? & _ & ? & ? & ?)%validated_dict_groups. by exists vs.
Qed.

(** X6: in a dict that [validate_conda_dependency_string_list] returns no
    requirement carries a marker, every name is canonical, and outside the
    channel ["pip"] no requirement carries extras or a url. *)
Theorem validated_dict_requirements strs d ch l r :
  validate_conda_dependency_string_list strs = Ok d →
  (ch, l) ∈ d → r ∈ l →
  marker r = None ∧ canonical_name r ∧ (ch ≠ "pip" → ¬ has_extras_or_url r).
Proof.
  intros (vs & Hall & Hwf & Hlook & _)%validated_dict_groups Hd Hr.
  specialize (Hlook ch). unfold channel_requirements in Hlook.
  rewrite (elem_of_list_to_map_1 _ _ _ Hwf Hd) in Hlook. simpl in Hlook.
  rewrite Hlook in Hr.
  apply list_elem_of_fmap in Hr as ([ch' r'] & -> & [Hch Hin]%list_elem_of_filter).
  simpl in *. subst ch'.
  apply list_elem_of_lookup in Hin as [i Hi].
  destruct (Forall2_lookup_r _ _ _ _ _ Hall Hi) as (s & _ & Hs).
  by eapply validate_conda_dependency_string_shape.
Qed.

(** X14: a successful [append_conda_dependency] keeps the channels of the
    dict in their order, and adds the channel of the appended dependency
    after them when the dict did not have it. *)
Theorem append_conda_dependency_keeps_channel_order d (p_chan_dep : string * Requirement) :
  (append_conda_dependency p_chan_dep d).1 = Ok () →
  (append_conda_dependency p_chan_dep d).2.*1 =
  if decide (p_chan_dep.1 ∈ d.*1) then d.*1 else d.*1 ++ [p_chan_dep.1].
Proof.
  destruct (append_conda_dependency_cases p_chan_dep d) as [[-> _]|(Hr & _ & _)].
  - intros _. apply appended_keys.
  - intros Hok. rewrite Hok in Hr. by destruct Hr.
Qed.

(** *** Plain requirement strings through both validators *)

Lemma validate_conda_plain s r :
  ¬ occurs "::" s →
  _validate_pip_requirement_string s = Ok r →
  ¬ has_extras_or_url r →
  _validate_conda_dependency_string s = Ok ("defaults", r).
Proof.
  intros Hno Hpip [He Hu]%truthy_extras_or_url.
  unfold _validate_conda_dependency_string.
  rewrite rpartition_not_found by done. simpl. rewrite Hpip. simpl.
  by rewrite He, Hu.
Qed.

Lemma all_requirements_defaults_only rs : all_requirements (defaults_only rs) = rs.
Proof.
  destruct rs as [|r rs]; [done|]. simpl.
  rewrite all_requirements_cons. apply app_nil_r.
Qed.

Lemma defaults_only_appended rs r :
  append_under "defaults" r (defaultdict_missing "defaults" (defaults_only rs))
  = defaults_only (rs ++ [r]).
Proof.
  by destruct rs.
Qed.

Lemma defaults_loop rs : ∀ acc,
  NoDup (name <$> acc ++ rs) →
  for_each ((λ r, ("defaults", r)) <$> rs) conda_body (defaults_only acc)
  = (Ok (), defaults_only (acc ++ rs)).
Proof.
  induction rs as [|r rs IH]; intros acc Hnd.
  - by rewrite app_nil_r.
  - rewrite fmap_cons, for_each_cons.
    change (conda_body ("defaults", r) (defaults_only acc))
      with (append_conda_dependency ("defaults", r) (defaults_only acc)).
    destruct (append_conda_dependency_cases ("defaults", r) (defaults_only acc))
      as [[Heq _]|(_ & _ & Hin)].
    + rewrite Heq. simpl. rewrite defaults_only_appended.
      rewrite (cons_middle r acc rs), (assoc_L (++)). apply IH.
      by rewrite <- (assoc_L (++)).
    + rewrite all_requirements_defaults_only in Hin. simpl in Hin.
      rewrite fmap_app in Hnd. apply NoDup_app in Hnd as (_ & Hdisj & _).
      destruct (Hdisj _ Hin). rewrite fmap_cons. by left.
Qed.

(** X10: on requirement strings without ["::"], extras and url the two
    list validators agree: when [validate_pip_requirement_string_list]
    returns a list, [validate_conda_dependency_string_list] returns the dict
    that holds this list under ["defaults"] (the empty dict for no
    string). *)
Theorem plain_strings_validate_alike strs rs :
  validate_pip_requirement_string_list strs = Ok rs →
  Forall (λ s, ¬ occurs "::" s) strs →
  Forall (λ r, ¬ has_extras_or_url r) rs →
  validate_conda_dependency_string_list strs = Ok (defaults_only rs).
Proof.
  intros [Hall Hnd]%validate_pip_requirement_string_list_ok Hplain Hbare.
  rewrite validate_conda_dependency_string_list_unfold.
  assert (list_map _validate_conda_dependency_string strs
          = Ok ((λ r, ("defaults", r)) <$> rs)) as ->.
  { apply list_map_ok. apply Forall2_fmap_r.
    clear Hnd. induction Hall as [|s r strs rs Hs Hall IH]; [constructor|].
    apply Forall_cons in Hplain as [Hs' Hplain], Hbare as [Hr Hbare].
    constructor; [by apply validate_conda_plain|by apply IH]. }
  pose proof (defaults_loop rs [] Hnd) as Hloop.
  rewrite app_nil_l in Hloop. change (defaults_only []) with ([] : conda_deps) in Hloop.
  unfold run_on. by rewrite Hloop.
Qed.

(** *** Local versions *)

(** X12: [get_local_installed_version_of_pip_package] changes at most the
    specifier of the requirement, and, when a specifier ["==v"] contains
    [v], applying it to its own result changes nothing. *)
Theorem get_local_installed_version_is_idempotent
    (distribution_version : string → option string) req :
  (∀ v, specifier_contains (specifier_of_string ("==" +:+ v)) v = true) →
  let pinned := get_local_installed_version_of_pip_package distribution_version req in
  name pinned = name req ∧ extras pinned = extras req
  ∧ url pinned = url req ∧ marker pinned = marker req
  ∧ get_local_installed_version_of_pip_package distribution_version pinned = pinned.
Proof.
  intros Hexact. cbv zeta. unfold get_local_installed_version_of_pip_package.
  destruct (distribution_version (name req)) as [v|] eqn:Hdist.
  - destruct (specifier_contains (specifier req) v) eqn:Hc; simpl.
    + rewrite Hdist. simpl. by rewrite Hexact.
    + by rewrite Hdist, Hc.
  - by rewrite Hdist.
Qed.

(** X13: after [relax_requirement_version],
    [get_local_installed_version_of_pip_package] pins an installed package
    to its installed version, whatever specifier the requirement had,
    whenever the empty specifier set contains that version; it returns the
    relaxed requirement when the empty specifier set does not contain the
    installed version, and when the package is not installed. *)
Theorem relaxed_requirement_takes_local_version
    (distribution_version : string → option string) req :
  let relaxed := relax_requirement_version req in
  let local := get_local_installed_version_of_pip_package distribution_version relaxed in
  match distribution_version (name req) with
  | Some v =>
      if specifier_contains specifier_empty v
      then local = set_specifier req (specifier_of_string ("==" +:+ v))
      else local = relaxed
  | None => local = relaxed
  end.
Proof.
  cbv zeta. unfold get_local_installed_version_of_pip_package. simpl.
  destruct (distribution_version (name req)) as [v|]; [|done].
  by destruct (specifier_contains specifier_empty v).
Qed.

End validator_facts.

(** ** More on the catalog lookup *)

Section cache_facts.
Context `{Packaging}.
Implicit Types (req : Requirement) (reqs : list Requirement)
  (cache : package_cache) (n : string).

Lemma pin_latest_None cache reqs : ∀ ret_list,
  pin_latest cache reqs ret_list = None ↔
  ∃ req, req ∈ reqs ∧ specifier_filter (specifier req) (cached cache (name req)) = [].
Proof.
  induction reqs as [|req reqs IH]; intros ret_list; simpl.
  - split; [done|]. intros (req & Hin & _). by apply elem_of_nil in Hin.
  - fold (cached cache (name req)).
    destruct (specifier_filter (specifier req) (cached cache (name req)))
      as [|v vs] eqn:Hsel.
    + split; [|done]. intros _. exists req. split; [by left|done].
    + rewrite IH. split.
      * intros (r & Hr & Hnil). exists r. split; [by right|done].
      * intros (r & [->|Hr]%elem_of_cons & Hnil); [congruence|eauto].
Qed.

(** A call either fails on its query, returning [None] with the cache as it
    was, or answers from the cache it leaves, or raises [InvalidVersion]. *)
Lemma validate_requirements_result session reqs cache :
  let run := validate_requirements_in_snowflake_conda_channel session reqs cache in
  (query_fails session reqs cache ∧ run = (Ok None, cache))
  ∨ (¬ query_fails session reqs cache ∧ run.1 = Ok (pin_latest run.2 reqs []))
  ∨ (¬ reads_versions session reqs cache ∧ raises InvalidVersion run.1).
Proof.
  cbv zeta.
  destruct (validate_requirements_run session reqs cache)
    as [[Hnil ->]|[[? ->]|[(_ & ? & _ & ->)|(_ & Hok & Hex & e & He & ->)]]].
  - right. left. split; [|done]. intros [? _]. done.
  - by left.
  - right. by left.
  - right. right. split; [|done]. intros [?|Hall]; [done|].
    apply Exists_exists in Hex as (row & Hrow & Hnone).
    rewrite Forall_forall in Hall. destruct (Hall row Hrow) as [v Hv]. congruence.
Qed.

(** X8: when the query of a call raises [DataError], the call returns [None]
    and leaves the cache exactly as it was. *)
Theorem failed_query_leaves_the_cache session reqs cache :
  query_fails session reqs cache →
  validate_requirements_in_snowflake_conda_channel session reqs cache = (Ok None, cache).
Proof.
  intros Hfail.
  destruct (validate_requirements_result session reqs cache)
    as [[_ ?]|[[? _]|[Hno _]]]; [done..|].
  destruct Hno. by left.
Qed.

(** X7: an answer is kept. When a call returns a list, and a specifier
    selects nothing from no versions, the same call on the cache it left
    returns the same list and leaves that cache as it is, whatever the
    catalog then holds. *)
Theorem cached_answer_is_kept session session' reqs cache l :
  (∀ spec, specifier_filter spec [] = []) →
  (validate_requirements_in_snowflake_conda_channel session reqs cache).1 = Ok (Some l) →
  let cache' := (validate_requirements_in_snowflake_conda_channel session reqs cache).2 in
  validate_requirements_in_snowflake_conda_channel session' reqs cache'
  = (Ok (Some l), cache').
Proof.
  intros Hnil Hrun. cbv zeta.
  destruct (validate_requirements_result session reqs cache)
    as [[_ Hfail]|[[_ Hpin]|[_ Hraise]]].
  { rewrite Hfail in Hrun. done. }
  2: { rewrite Hrun in Hraise. done. }
  rewrite Hrun in Hpin. injection Hpin as Hpin.
  set (cache' := (validate_requirements_in_snowflake_conda_channel session reqs cache).2)
    in *.
  rewrite validate_requirements_no_query; [by rewrite <- Hpin|].
  apply elem_of_nil_inv. intros req [Hc Hin]%list_elem_of_filter.
  assert (pin_latest cache' reqs [] = None) as Hnone; [|congruence].
  apply pin_latest_None. exists req. split; [done|].
  unfold cached. by rewrite Hc.
Qed.

(** X9: a package the catalog does not list is not remembered. When a
    requested package is not cached and the catalog lists no python version
    of it, and a specifier selects nothing from no versions, the call
    returns no list, it returns [None] when [version.parse] accepts the
    [VERSION] of every row it reads, and the package is still not cached
    afterwards. *)
Theorem unlisted_package_is_not_cached session reqs cache req :
  (∀ spec, specifier_filter spec [] = []) →
  req ∈ reqs → cache !! name req = None →
  catalog_versions session (name req) = [] →
  (∀ l, (validate_requirements_in_snowflake_conda_channel session reqs cache).1
        ≠ Ok (Some l))
  ∧ (reads_versions session reqs cache →
       (validate_requirements_in_snowflake_conda_channel session reqs cache).1 = Ok None)
  ∧ (validate_requirements_in_snowflake_conda_channel session reqs cache).2
      !! name req = None.
Proof.
  intros Hnil Hin Hc Hcat.
  assert ((validate_requirements_in_snowflake_conda_channel session reqs cache).2
            !! name req = None) as Hafter.
  { destruct (cache_after_call session reqs cache (name req))
      as [->|(_ & _ & vs & Hne & [rest Hpre] & _)]; [done|].
    rewrite Hcat in Hpre. symmetry in Hpre. by apply app_eq_nil in Hpre as [? _]. }
  assert (pin_latest
            (validate_requirements_in_snowflake_conda_channel session reqs cache).2
            reqs [] = None) as Hpin.
  { apply pin_latest_None. exists req. split; [done|].
    unfold cached. by rewrite Hafter. }
  split_and!; [| |done].
  - intros l Hl.
    destruct (validate_requirements_result session reqs cache)
      as [[_ Hrun]|[[_ Hrun]|[_ Hraise]]].
    + rewrite Hrun in Hl. done.
    + rewrite Hrun, Hpin in Hl. done.
    + rewrite Hl in Hraise. done.
  - intros Hread.
    destruct (validate_requirements_result session reqs cache)
      as [[_ ->]|[[_ ->]|[Hno _]]]; [done|by rewrite Hpin|done].
Qed.

(** X15: a row with a [VERSION] that [version.parse] rejects ends the call
    with [InvalidVersion], and the versions of the rows read before it stay
    in the cache: the package is cached with part of its versions, and a
    later call does not ask the catalog about it again. *)
Theorem invalid_version_leaves_part_cached session reqs cache :
  query_raises_DataError session (sorted (name <$> reqs_to_request cache reqs)) = false →
  Exists (λ row, row_version row = None) (rows_selected session reqs cache) →
  raises InvalidVersion
    (validate_requirements_in_snowflake_conda_channel session reqs cache).1
  ∧ (validate_requirements_in_snowflake_conda_channel session reqs cache).2
    = cache_after (rows_read (rows_selected session reqs cache)) cache
  ∧ ∀ row, row ∈ rows_read (rows_selected session reqs cache) →
      reqs_to_request
        (validate_requirements_in_snowflake_conda_channel session reqs cache).2
        (filter (λ req, name req = PACKAGE_NAME row) reqs) = [].
Proof.
  intros Hq Hex.
  destruct (validate_requirements_run session reqs cache)
    as [[Hnil _]|[[[_ Hfail] _]|[(_ & _ & Hall & _)|(_ & _ & _ & e & He & ->)]]].
  - unfold rows_selected in Hex. rewrite Hnil in Hex.
    change (sorted (name <$> [])) with (@nil string) in Hex.
    rewrite select_packages_nil in Hex. by apply Exists_nil in Hex.
  - congruence.
  - apply Exists_exists in Hex as (row & Hrow & Hnone).
    rewrite Forall_forall in Hall. destruct (Hall row Hrow) as [v Hv]. congruence.
  - cbn [fst snd]. split_and!; [done..|].
    intros row Hrow. apply elem_of_nil_inv.
    intros req [Hc [Hname _]%list_elem_of_filter]%list_elem_of_filter.
    rewrite lookup_cache_after in Hc.
    destruct (decide (versions_of _ = [])) as [Hempty|_]; [|done].
    assert (row ∈ filter (λ row', PACKAGE_NAME row' = name req)
                    (rows_read (rows_selected session reqs cache))) as Hin.
    { by apply list_elem_of_filter. }
    pose proof (rows_read_parse (rows_selected session reqs cache)) as Hparse.
    rewrite Forall_forall in Hparse.
    destruct (Hparse row Hrow) as [v Hv].
    apply list_elem_of_split in Hin as (l1 & l2 & Hsplit).
    rewrite Hsplit in Hempty. unfold versions_of in Hempty.
    rewrite omap_app in Hempty. apply app_eq_nil in Hempty as [_ Hempty].
    simpl in Hempty. by rewrite Hv in Hempty.
Qed.

End cache_facts.

(** * Runs on concrete inputs *)

Lemma string_compare_refl (s : string) : String.compare s s = Eq.
Proof.
  induction s as [|c s IH]; [done|]. simpl.
  unfold Ascii.compare. by rewrite N.compare_refl.
Qed.

Lemma string_ltb_le (a b : string) :
  String.ltb a b = true ↔ String.le a b ∧ a ≠ b.
Proof.
  unfold String.ltb, String.le, String.leb. split.
  - destruct (String.compare a b) eqn:Hc; try done. intros _.
    split; [done|]. intros ->. by rewrite string_compare_refl in Hc.
  - intros [Hle Hne]. destruct (String.compare a b) eqn:Hc; try done.
    by apply String.compare_eq_iff in Hc.
Qed.

Global Instance sample_version_order : @VersionOrder sample.types sample.packaging.
Proof.
  split.
  - intros v. apply not_true_iff_false. intros [_ Hne]%string_ltb_le. done.
  - intros a b c [Hab Hne]%string_ltb_le [Hbc Hne']%string_ltb_le.
    apply string_ltb_le. split; [by trans b|].
    intros ->. destruct Hne. by apply (anti_symm String.le).
Qed.

Example validate_pip_requirement_string_runs :
  _validate_pip_requirement_string "Scikit_Learn>=1.0"
    = Ok (sample.requirement "scikit-learn" (sample.AtLeast "1.0"))
  ∧ raises ValueError (_validate_pip_requirement_string "numpy; python_version<'3.8'")
  ∧ raises ValueError (_validate_pip_requirement_string "not a requirement").
Proof. by vm_compute. Qed.

Example resolve_conda_environment_runs :
  resolve_conda_environment sample.two_package_solver [sample.numpy] ["defaults"]
    = Returned (Some ["numpy==1.0"])
  ∧ resolve_conda_environment sample.two_package_solver [sample.pandas] ["defaults"]
    = Returned None.
Proof. by vm_compute. Qed.

(** C1, as stated, fails on a dict that holds the name under two channels:
    the first hit, under ["conda-forge"], decides, so appending under
    ["defaults"] raises [DuplicateDependencyInMultipleChannelsError] although
    the name is there under ["defaults"] too. *)
Lemma first_hit_decides_the_exception :
  dict_wf sample.numpy_twice
  ∧ ¬ detects_channel_conflicts sample.numpy_twice ("defaults", sample.numpy_1).
Proof.
  split.
  { unfold dict_wf. simpl. apply NoDup_cons. split; [|apply NoDup_singleton].
    by intros ?%list_elem_of_singleton. }
  intros (_ & Hdup & _).
  assert (occurs_under sample.numpy_twice "numpy" "defaults") as Hocc.
  { exists [sample.numpy], sample.numpy. split; [|split; [by left|done]].
    right. by left. }
  apply Hdup in Hocc. vm_compute in Hocc. discriminate.
Qed.

(** The conflict rule on a dict that holds [numpy] under ["defaults"] only. *)
Lemma append_conda_dependency_conflicts_witness :
  detects_channel_conflicts sample.numpy_once ("conda-forge", sample.numpy_1).
Proof.
  destruct (@append_conda_dependency_conflicts sample.types sample.packaging)
    as [Hdict _].
  apply Hdict.
  - unfold dict_wf. simpl. apply NoDup_singleton.
  - intros [(l & req & Hin & _) _].
    apply list_elem_of_singleton in Hin. discriminate.
Defined.

(** Two validated inputs and the uniqueness of their names. *)
Lemma validated_names_are_unique_witness :
  ∃ rs d,
    validate_pip_requirement_string_list ["numpy"; "Pandas>=1.0"] = Ok rs
    ∧ validate_conda_dependency_string_list ["numpy"; "conda-forge::pandas"] = Ok d
    ∧ (NoDup (name <$> rs) ∧ Forall canonical_name rs)
    ∧ (NoDup (name <$> all_requirements d) ∧ Forall canonical_name (all_requirements d)
       ∧ dict_wf d).
Proof.
  eexists _, _. split; [vm_compute; reflexivity|]. split; [vm_compute; reflexivity|].
  apply (validated_names_are_unique ["numpy"; "Pandas>=1.0"] _
           ["numpy"; "conda-forge::pandas"] _); vm_compute; reflexivity.
Defined.

(** C3, as stated, fails: appending a second [numpy] requirement raises
    instead of returning a list with one merged entry. *)
Lemma duplicate_is_not_merged :
  ¬ merges_duplicate [sample.numpy] sample.numpy_1.
Proof. intros [Hrun _]. vm_compute in Hrun. discriminate. Qed.

(** A second [numpy] is rejected, in the list and in the validator. *)
Lemma append_requirement_list_rejects_duplicate_witness :
  raises DuplicateDependencyError (append_requirement_list sample.numpy_1 [sample.numpy]).1
  ∧ (append_requirement_list sample.numpy_1 [sample.numpy]).2 = [sample.numpy]
  ∧ raises DuplicateDependencyError
      (validate_pip_requirement_string_list ["numpy"; "NumPy>=1.0"]).
Proof.
  apply (append_requirement_list_rejects_duplicate [sample.numpy] sample.numpy_1
           "numpy" "NumPy>=1.0" sample.numpy sample.numpy_1).
  - simpl. by left.
  - vm_compute. reflexivity.
  - vm_compute. reflexivity.
  - reflexivity.
Defined.

(** C5, as stated, fails once the cache is behind the catalog: after a first
    lookup of [numpy] (catalog: 1.0) the catalog lists 2.0 as well, and the
    second lookup still answers ["numpy==1.0"]. It fails too on a catalog
    with a [VERSION] that is not a version: the lookup raises
    [InvalidVersion]. *)
Lemma lookup_does_not_reconcile_with_catalog :
  ((validate_requirements_in_snowflake_conda_channel
      sample.catalog_now [sample.numpy] sample.cache_then).1 = Ok (Some ["numpy==1.0"])
   ∧ ¬ reconciles_with_catalog sample.catalog_now [sample.numpy] sample.cache_then)
  ∧ (raises InvalidVersion
       (validate_requirements_in_snowflake_conda_channel
          sample.catalog_odd [sample.numpy] ∅).1
     ∧ ¬ reconciles_with_catalog sample.catalog_odd [sample.numpy] ∅).
Proof.
  split; split; [by vm_compute| |by vm_compute|].
  - intros (out & Hrun & _ & Hsome). vm_compute in Hrun. injection Hrun as <-.
    destruct (Hsome _ eq_refl) as (_ & vs & Hvs & Hperm).
    apply Forall2_cons_inv_l in Hvs as (v & vs' & [Hin Hmax] & Hnil & ->).
    apply Forall2_nil_inv_l in Hnil as ->.
    vm_compute in Hin. apply elem_of_cons in Hin as [->|Hin].
    + specialize (Hmax "2.0"). discriminate Hmax. vm_compute. right. by left.
    + apply list_elem_of_singleton in Hin as ->.
      apply Permutation_singleton_l in Hperm. vm_compute in Hperm. discriminate.
  - intros (out & Hrun & _). vm_compute in Hrun. discriminate.
Qed.

(** A lookup on the cache a first call left, one on an empty cache, and one
    on a catalog with a [VERSION] that is not a version. *)
Lemma validate_requirements_reconciles_witness :
  reconciles_with_known sample.catalog_now [sample.numpy] sample.cache_then
  ∧ reconciles_with_catalog sample.catalog_now [sample.numpy; sample.pandas] ∅
  ∧ raises InvalidVersion
      (validate_requirements_in_snowflake_conda_channel
         sample.catalog_odd [sample.numpy] ∅).1.
Proof.
  split_and!.
  - destruct (validate_requirements_reconciles sample.catalog_now [sample.numpy]
                sample.cache_then) as [Hreads _].
    apply Hreads. right. apply (bool_decide_unpack _). vm_compute. exact I.
  - destruct (validate_requirements_reconciles sample.catalog_now
                [sample.numpy; sample.pandas] ∅) as [Hreads _].
    apply Hreads.
    + right. apply (bool_decide_unpack _). vm_compute. exact I.
    + intros req _. apply lookup_empty.
  - destruct (validate_requirements_reconciles sample.catalog_odd [sample.numpy] ∅)
      as [_ Hraises].
    apply Hraises. intros [[_ Hq]|Hall]; [discriminate Hq|].
    revert Hall. apply (bool_decide_unpack _). vm_compute. exact I.
Defined.

(** C6, as stated, fails: with [numpy] 1.0 installed, asking for the local
    version of [numpy==2.0] warns, and the warning leaves a
    [__warningregistry__] in the module, which had none. *)
Lemma warning_changes_module_state :
  ¬ only_the_lookup_changes_state
      (call_get_local_installed_version_of_pip_package
         sample.numpy_installed sample.numpy_2)
      sample.imported.
Proof.
  intros Honly. destruct Honly as (session & reqs & Hop); [|discriminate Hop].
  intros Hsame. apply (f_equal __warningregistry__) in Hsame.
  vm_compute in Hsame. discriminate Hsame.
Qed.

(** C9, as stated, fails on a list that holds, next to the two spellings, a
    string the validator rejects, and on a list one of whose spellings has a
    marker: the call raises [ValueError]. *)
Lemma rejected_string_hides_the_duplicate :
  (raises ValueError
     (validate_pip_requirement_string_list ["numpy"; "not a requirement"; "NumPy"])
   ∧ ¬ respelling_raises_duplicate ["numpy"; "not a requirement"; "NumPy"])
  ∧ (raises ValueError
       (validate_pip_requirement_string_list ["NumPy; python_version<'3.8'"; "numpy"])
     ∧ ¬ respelling_raises_duplicate ["NumPy; python_version<'3.8'"; "numpy"]).
Proof.
  split; split; [by vm_compute| |by vm_compute|].
  - intros Hdup.
    specialize (Hdup 0 2 "numpy" "NumPy" sample.numpy
                  (sample.requirement "NumPy" sample.AnyVersion)).
    assert (raises DuplicateDependencyError
              (validate_pip_requirement_string_list
                 ["numpy"; "not a requirement"; "NumPy"])) as Hraise.
    { apply Hdup; [done|reflexivity..]. }
    vm_compute in Hraise. discriminate Hraise.
  - intros Hdup.
    specialize (Hdup 0 1 "NumPy; python_version<'3.8'" "numpy"
                  (mkRequirement sample.types "NumPy" None ∅ sample.AnyVersion
                     (Some "python_version<'3.8'"))
                  sample.numpy).
    assert (raises DuplicateDependencyError
              (validate_pip_requirement_string_list
                 ["NumPy; python_version<'3.8'"; "numpy"])) as Hraise.
    { apply Hdup; [done|reflexivity..]. }
    vm_compute in Hraise. discriminate Hraise.
Qed.

(** Both appends raise on [numpy] and leave their object as it was. *)
Lemma append_raises_unchanged_witness :
  (append_requirement_list sample.numpy_1 [sample.numpy]).2 = [sample.numpy]
  ∧ (append_conda_dependency ("conda-forge", sample.numpy_1) sample.numpy_once).2
    = sample.numpy_once.
Proof.
  destruct (append_raises_unchanged [sample.numpy] sample.numpy_1
              sample.numpy_once ("conda-forge", sample.numpy_1)) as [Hlist Hdict].
  split; [apply Hlist|apply Hdict; right]; vm_compute; reflexivity.
Defined.

(** [Scikit_Learn], [scikit-learn] and [scikit.learn] are one package. *)
Lemma canonical_names_collide_witness :
  raises DuplicateDependencyError
    (validate_pip_requirement_string_list ["Scikit_Learn"; "pandas"; "scikit-learn>=1.0"])
  ∧ raises DuplicateDependencyInMultipleChannelsError
      (validate_conda_dependency_string_list ["conda-forge::Scikit_Learn"; "scikit.learn"]).
Proof.
  destruct (@canonical_names_collide sample.types sample.packaging)
    as (Hpip & _ & Hpair).
  split.
  - apply (Hpip _ 0 2 "Scikit_Learn" "scikit-learn>=1.0"
             (sample.requirement "Scikit_Learn" sample.AnyVersion)
             (sample.requirement "scikit-learn" (sample.AtLeast "1.0"))).
    + done.
    + reflexivity.
    + reflexivity.
    + vm_compute. reflexivity.
    + vm_compute. reflexivity.
    + vm_compute. reflexivity.
    + repeat (constructor; [vm_compute; exact I|]). constructor.
  - apply (Hpair "conda-forge::Scikit_Learn" "scikit.learn"
             (sample.requirement "Scikit_Learn" sample.AnyVersion)
             (sample.requirement "scikit.learn" sample.AnyVersion)).
    + vm_compute. reflexivity.
    + vm_compute. reflexivity.
    + vm_compute. reflexivity.
    + vm_compute. exact I.
    + vm_compute. exact I.
Defined.

(** Channel and requirement parts, and extras with and without ["pip"]. *)
Lemma validate_conda_dependency_string_spec_witness :
  (channel_part "conda-forge::numpy==1.0" = "conda-forge"
   ∧ requirement_part "conda-forge::numpy==1.0" = "numpy==1.0")
  ∧ (channel_part "numpy" = "defaults" ∧ requirement_part "numpy" = "numpy")
  ∧ raises ValueError (_validate_conda_dependency_string "conda-forge::foo[bar]")
  ∧ _validate_conda_dependency_string "pip::foo[bar]"
    = Ok ("pip", mkRequirement sample.types "foo" None {["bar"]} sample.AnyVersion None).
Proof.
  split; [|split; [|split]].
  - destruct (validate_conda_dependency_string_spec "conda-forge::numpy==1.0")
      as (_ & Hcut & _).
    apply (Hcut "conda-forge" "numpy==1.0").
    apply rsplit_last_Some; [done|reflexivity].
  - destruct (validate_conda_dependency_string_spec "numpy") as (Hwhole & _).
    apply Hwhole. apply rsplit_last_None; [done|reflexivity].
  - destruct (validate_conda_dependency_string_spec "conda-forge::foo[bar]")
      as (_ & _ & _ & Hok).
    destruct (Hok (mkRequirement sample.types "foo" None {["bar"]} sample.AnyVersion None))
      as (Hextras & _ & _); [vm_compute; reflexivity|].
    apply Hextras; [by vm_compute|]. left. simpl.
    apply (non_empty_singleton_L (C := gset string)).
  - destruct (validate_conda_dependency_string_spec "pip::foo[bar]")
      as (_ & _ & _ & Hok).
    destruct (Hok (mkRequirement sample.types "foo" None {["bar"]} sample.AnyVersion None))
      as (_ & _ & Hpip); [vm_compute; reflexivity|].
    apply Hpip. vm_compute. reflexivity.
Defined.

(** ** The further properties on concrete inputs *)

Lemma sample_filter_nil (spec : sample.specifier_set) :
  @specifier_filter sample.types sample.packaging spec [] = [].
Proof. reflexivity. Qed.

Lemma sample_exact_contains (v : string) :
  @specifier_contains sample.types sample.packaging
    (@specifier_of_string sample.types sample.packaging ("==" +:+ v)) v = true.
Proof.
  change (sample.satisfies (sample.specifier_of_string ("==" +:+ v)) v = true).
  unfold sample.specifier_of_string.
  rewrite (proj2 (strip_prefix_Some "==" ("==" +:+ v) v) eq_refl).
  by apply bool_decide_eq_true.
Qed.

(** Three strings over two channels, grouped. *)
Lemma validate_conda_dependency_string_list_groups_witness :
  ∃ d,
    validate_conda_dependency_string_list ["numpy"; "conda-forge::pandas"; "scipy"] = Ok d
    ∧ ∃ vs,
        Forall2 (λ s v, _validate_conda_dependency_string s = Ok v)
          ["numpy"; "conda-forge::pandas"; "scipy"] vs
        ∧ (∀ ch, channel_requirements d ch = (filter (λ v, v.1 = ch) vs).*2)
        ∧ d.*1 = channels_in_order vs
        ∧ Forall (λ item, item.2 ≠ []) d.
Proof.
  eexists. split; [vm_compute; reflexivity|].
  apply (validate_conda_dependency_string_list_groups
           ["numpy"; "conda-forge::pandas"; "scipy"]).
  vm_compute. reflexivity.
Defined.

(** The parts of ["conda-forge::numpy==1.0"]. *)
Lemma validate_conda_dependency_string_split_witness :
  "conda-forge" ≠ ""
  ∧ ¬ occurs "::" (requirement_part "conda-forge::numpy==1.0")
  ∧ _validate_pip_requirement_string (requirement_part "conda-forge::numpy==1.0")
    = Ok (sample.requirement "numpy" (sample.Exactly "1.0"))
  ∧ (("conda-forge" = "defaults"
      ∧ "conda-forge::numpy==1.0" = requirement_part "conda-forge::numpy==1.0")
     ∨ ("conda-forge" = "defaults"
        ∧ "conda-forge::numpy==1.0" = "::" +:+ requirement_part "conda-forge::numpy==1.0")
     ∨ "conda-forge::numpy==1.0"
       = "conda-forge" +:+ "::" +:+ requirement_part "conda-forge::numpy==1.0").
Proof.
  apply (validate_conda_dependency_string_split "conda-forge::numpy==1.0"
           "conda-forge" (sample.requirement "numpy" (sample.Exactly "1.0"))).
  vm_compute. reflexivity.
Defined.

(** [numpy] under ["defaults"], next to a [pip] requirement with extras. *)
Lemma validated_dict_requirements_witness :
  marker sample.numpy = None ∧ canonical_name sample.numpy
  ∧ ("defaults" ≠ "pip" → ¬ has_extras_or_url sample.numpy).
Proof.
  eapply (validated_dict_requirements ["pip::foo[bar]"; "numpy"] _
            "defaults" [sample.numpy] sample.numpy).
  - vm_compute. reflexivity.
  - right. left.
  - left.
Defined.

(** The answer for [numpy] survives the catalog listing version 2.0. *)
Lemma cached_answer_is_kept_witness :
  validate_requirements_in_snowflake_conda_channel sample.catalog_now [sample.numpy]
    sample.cache_then
  = (Ok (Some ["numpy==1.0"]), sample.cache_then).
Proof.
  apply (cached_answer_is_kept sample.catalog_then sample.catalog_now [sample.numpy]
           ∅ ["numpy==1.0"]).
  - apply sample_filter_nil.
  - vm_compute. reflexivity.
Defined.

(** A lookup while the catalog cannot be queried. *)
Lemma failed_query_leaves_the_cache_witness :
  validate_requirements_in_snowflake_conda_channel sample.catalog_down [sample.numpy] ∅
  = (Ok None, ∅).
Proof.
  apply failed_query_leaves_the_cache. split.
  - vm_compute. discriminate.
  - reflexivity.
Defined.

(** [scipy] is not in the catalog. *)
Lemma unlisted_package_is_not_cached_witness :
  (validate_requirements_in_snowflake_conda_channel sample.catalog_now
     [sample.numpy; sample.requirement "scipy" sample.AnyVersion] ∅).1 = Ok None
  ∧ (validate_requirements_in_snowflake_conda_channel sample.catalog_now
       [sample.numpy; sample.requirement "scipy" sample.AnyVersion] ∅).2 !! "scipy" = None.
Proof.
  destruct (unlisted_package_is_not_cached sample.catalog_now
              [sample.numpy; sample.requirement "scipy" sample.AnyVersion] ∅
              (sample.requirement "scipy" sample.AnyVersion))
    as (_ & Hnone & Hafter).
  - apply sample_filter_nil.
  - right. left.
  - apply lookup_empty.
  - reflexivity.
  - split; [|exact Hafter]. apply Hnone.
    right. apply (bool_decide_unpack _). vm_compute. exact I.
Defined.

(** The second row of [numpy] in the catalog has the version ["1.0_3"]: the
    lookup raises, and [numpy] is cached with the version of the first row. *)
Lemma invalid_version_leaves_part_cached_witness :
  raises InvalidVersion
    (validate_requirements_in_snowflake_conda_channel
       sample.catalog_odd [sample.numpy] ∅).1
  ∧ (validate_requirements_in_snowflake_conda_channel
       sample.catalog_odd [sample.numpy] ∅).2 !! "numpy" = Some ["1.0"].
Proof.
  destruct (invalid_version_leaves_part_cached sample.catalog_odd [sample.numpy] ∅)
    as (Hraise & Hafter & _).
  - reflexivity.
  - apply (bool_decide_unpack _). vm_compute. exact I.
  - split; [exact Hraise|]. rewrite Hafter. reflexivity.
Defined.

(** Two plain strings through both list validators. *)
Lemma plain_strings_validate_alike_witness :
  ∃ rs,
    validate_pip_requirement_string_list ["numpy"; "Pandas>=1.0"] = Ok rs
    ∧ validate_conda_dependency_string_list ["numpy"; "Pandas>=1.0"]
      = Ok (defaults_only rs).
Proof.
  eexists. split; [vm_compute; reflexivity|].
  apply (plain_strings_validate_alike ["numpy"; "Pandas>=1.0"]).
  - vm_compute. reflexivity.
  - repeat (constructor; [apply rsplit_last_None; [done|reflexivity]|]). constructor.
  - repeat (constructor; [apply truthy_extras_or_url; split; reflexivity|]). constructor.
Defined.

(** [numpy>=1.0] with [numpy] 1.0 installed. *)
Lemma get_local_installed_version_is_idempotent_witness :
  let pinned :=
    get_local_installed_version_of_pip_package sample.numpy_installed sample.numpy_1 in
  name pinned = "numpy" ∧ extras pinned = ∅ ∧ url pinned = None ∧ marker pinned = None
  ∧ get_local_installed_version_of_pip_package sample.numpy_installed pinned = pinned.
Proof.
  apply (get_local_installed_version_is_idempotent sample.numpy_installed sample.numpy_1).
  apply sample_exact_contains.
Defined.

(** [numpy==2.0], relaxed, takes the installed 1.0. *)
Lemma relaxed_requirement_takes_local_version_witness :
  get_local_installed_version_of_pip_package sample.numpy_installed
    (relax_requirement_version sample.numpy_2)
  = sample.requirement "numpy" (sample.Exactly "1.0").
Proof.
  exact (relaxed_requirement_takes_local_version sample.numpy_installed sample.numpy_2).
Defined.

(** A new channel goes after ["defaults"]. *)
Lemma append_conda_dependency_keeps_channel_order_witness :
  (append_conda_dependency ("conda-forge", sample.pandas) sample.numpy_once).2.*1
  = ["defaults"; "conda-forge"].
Proof.
  apply (append_conda_dependency_keeps_channel_order sample.numpy_once
           ("conda-forge", sample.pandas)).
  vm_compute. reflexivity.
Defined.
